(** * aflow.keywords: the AFLUX query-expression builder

    A shallow embedding of [aflow/keywords.py]: the [Keyword] class with its
    overloaded comparison operators, the boolean combinators, negation and
    stringification, and the module-level [_find_all] / [reset] functions.

    Python objects are mutable and compared by identity ([other is self]), so
    [Keyword] instances live in an object heap and are named by references.
    A method is a computation over the heap that returns normally or raises. *)

From stdpp Require Import base strings list gmap pretty.
From Stdlib Require Import ZArith Ascii.

Open Scope string_scope.
Open Scope list_scope.
Open Scope nat_scope.

(** ** Python strings

    A [str] is modelled as a [string]. The source only searches for and
    replaces the one-character substrings [':'], [','], ['!'] and ['(']. *)

Module PyStr.

(** [c in s] for a one-character [c]. *)
Fixpoint contains (c : ascii) (s : string) : bool :=
  match s with
  | EmptyString => false
  | String a s' => if Ascii.eqb a c then true else contains c s'
  end.

(** [s.replace(c, new)] for a one-character [c]: every occurrence, left to
    right. *)
Fixpoint replace (c : ascii) (new : string) (s : string) : string :=
  match s with
  | EmptyString => EmptyString
  | String a s' =>
      if Ascii.eqb a c then new +:+ replace c new s'
      else String a (replace c new s')
  end.

Definition colon : ascii := ":"%char.
Definition comma : ascii := ","%char.
Definition bang : ascii := "!"%char.
Definition lparen : ascii := "("%char.

End PyStr.

(** ** Comparison values

    The right operand of [<], [>], [%] and [==]. [isinstance(other,
    string_types)] separates text from everything else; everything else is
    rendered by [format], that is by [str(other)]. An [int] renders as its
    decimal numeral; a [float], list or numpy value is carried by the text
    [str] gives for it. *)

Inductive value : Type :=
| VStr (s : string)
| VInt (z : Z)
| VObj (rendering : string).

Definition is_string_types (v : value) : bool :=
  match v with VStr _ => true | _ => false end.

(** What ["{}".format(v)] substitutes. *)
Definition format_value (v : value) : string :=
  match v with
  | VStr s => s
  | VInt z => pretty z
  | VObj r => r
  end.

(** What ["{}".format(x)] substitutes for an [x] that holds a [str] or
    [None]: the class attribute [name] is [None] on the base class and a
    [str] on every field subclass. *)
Definition format_str (x : option string) : string :=
  match x with
  | Some s => s
  | None => "None"
  end.

(** ** Exceptions and the heap monad *)

Inductive exn : Type :=
| AssertionError
| TypeError
| ValueError
| IndexError
| AttributeError.

(** The outcome of running a piece of code from a store [S]: a value and the
    store after it, an exception and the store at the time it was raised, or
    [Stuck] when the code dereferences something that is not an object of the
    store (no Python execution does). *)
Inductive result (S A : Type) : Type :=
| Return (a : A) (s : S)
| Raise (e : exn) (s : S)
| Stuck.

Arguments Return {S A} a s.
Arguments Raise {S A} e s.
Arguments Stuck {S A}.

Definition M (S A : Type) : Type := S -> result S A.

Definition ret {S A} (a : A) : M S A := fun s => Return a s.

Definition bind {S A B} (m : M S A) (k : A -> M S B) : M S B :=
  fun s =>
    match m s with
    | Return a s' => k a s'
    | Raise e s' => Raise e s'
    | Stuck => Stuck
    end.

Definition raise {S A} (e : exn) : M S A := fun s => Raise e s.

Definition stuck {S A} : M S A := fun _ => Stuck.

Declare Scope py_scope.
Delimit Scope py_scope with py.
Notation "x <- m ;; k" := (bind m (fun x => k))
  (at level 100, m at next level, right associativity) : py_scope.
Notation "m ;; k" := (bind m (fun _ => k))
  (at level 100, right associativity) : py_scope.
Open Scope py_scope.

(** [for x in l: body x]. *)
Fixpoint for_each {S A} (l : list A) (body : A -> M S unit) : M S unit :=
  match l with
  | [] => ret tt
  | x :: l' => body x ;; for_each l' body
  end.

(** [assert b]. *)
Definition py_assert {S} (b : bool) : M S unit :=
  if b then ret tt else raise AssertionError.

(** [l[i]] on a list. *)
Definition py_index {S} (l : list string) (i : nat) : M S string :=
  match l !! i with
  | Some x => ret x
  | None => raise IndexError
  end.

(** [c in s] where [s] may be [None]: ["argument of type 'NoneType' is not
    iterable"]. *)
Definition py_in {S} (c : ascii) (s : option string) : M S bool :=
  match s with
  | Some s => ret (PyStr.contains c s)
  | None => raise TypeError
  end.

(** [x is not None]. *)
Definition is_not_None {A} (x : option A) : bool :=
  match x with Some _ => true | None => false end.

(** ** The Keyword class *)

Module Keyword.

(** One instance. [name] is the class attribute the instance sees; [state],
    [cache] and [classes] are the instance attributes set by [__init__]. *)
Record t : Type := mk {
  name : option string;
  state : list string;
  cache : list string;
  classes : gset (option string)
}.

Definition set_state (k : t) (st : list string) : t :=
  mk (name k) st (cache k) (classes k).
Definition set_cache (k : t) (c : list string) : t :=
  mk (name k) (state k) c (classes k).
Definition set_classes (k : t) (cl : gset (option string)) : t :=
  mk (name k) (state k) (cache k) cl.

(** References to instances, and the object heap. A new object takes the
    next free index. *)
Definition ref : Type := nat.
Definition heap : Type := list t.

Definition get (r : ref) : M heap t :=
  fun h => match h !! r with
           | Some k => Return k h
           | None => Stuck
           end.

Definition put (r : ref) (k : t) : M heap unit :=
  fun h => match h !! r with
           | Some _ => Return tt (<[r := k]> h)
           | None => Stuck
           end.

Definition alloc (k : t) : M heap ref :=
  fun h => Return (length h) (h ++ [k]).

(** [Keyword.__init__(self, state=None)] on a class whose [name] attribute
    is [nm]; returns the new instance. The instance holds the value of the
    list it is given: the calls in this module pass no list (the prototypes)
    or a list built for the call (the result of a combination). A caller's
    list object passed to two instances would be one list shared by both,
    which a heap of list values does not represent. *)
Definition __init__ (nm : option string) (st : option (list string)) : M heap ref :=
  alloc (mk nm
            (match st with Some l => l | None => [] end)
            []
            {[ nm ]}).

(** [Keyword.__str__]. The result is [None] when [self.name] is. *)
Definition __str__ (self : ref) : M heap (option string) :=
  k <- get self ;;
  if length (state k) =? 1 then
    s <- py_index (state k) 0 ;; ret (Some s)
  else if length (cache k) =? 1 then
    s <- py_index (cache k) 0 ;; ret (Some s)
  else ret (name k).

(** [self.cache.append(x)]. *)
Definition cache_append (self : ref) (x : string) : M heap unit :=
  k <- get self ;; put self (set_cache k (cache k ++ [x])).

(** [self.state.append(x)]. *)
Definition state_append (self : ref) (x : string) : M heap unit :=
  k <- get self ;; put self (set_state k (state k ++ [x])).

Definition __lt__ (self : ref) (other : value) : M heap ref :=
  k <- get self ;;
  (if is_string_types other then
     cache_append self (format_str (name k) +:+ "(*'" +:+ format_value other +:+ "')")
   else
     cache_append self (format_str (name k) +:+ "(*" +:+ format_value other +:+ ")")) ;;
  ret self.

Definition __gt__ (self : ref) (other : value) : M heap ref :=
  k <- get self ;;
  (if is_string_types other then
     cache_append self (format_str (name k) +:+ "('" +:+ format_value other +:+ "'*)")
   else
     cache_append self (format_str (name k) +:+ "(" +:+ format_value other +:+ "*)")) ;;
  ret self.

Definition __mod__ (self : ref) (other : value) : M heap ref :=
  py_assert (is_string_types other) ;;
  k <- get self ;;
  cache_append self (format_str (name k) +:+ "(*'" +:+ format_value other +:+ "'*)") ;;
  ret self.

Definition __eq__ (self : ref) (other : value) : M heap ref :=
  k <- get self ;;
  (if is_string_types other then
     cache_append self (format_str (name k) +:+ "('" +:+ format_value other +:+ "')")
   else
     cache_append self (format_str (name k) +:+ "(" +:+ format_value other +:+ ")")) ;;
  ret self.

(** [self.state = v], [self.cache = v], [self.classes = v]. *)
Definition assign_state (self : ref) (v : list string) : M heap unit :=
  k <- get self ;; put self (set_state k v).
Definition assign_cache (self : ref) (v : list string) : M heap unit :=
  k <- get self ;; put self (set_cache k v).
Definition assign_classes (self : ref) (v : gset (option string)) : M heap unit :=
  k <- get self ;; put self (set_classes k v).

(** The start of either half of the cross-node branch of
    [_generic_combine]: the variable ([s] or [o]) is [None] unless one of
    the two tests on the operand's buffers holds. *)
Definition pick (k : t) : M heap (option string) :=
  if (length (state k) =? 1) && (length (cache k) =? 0) then
    x <- py_index (state k) 0 ;; ret (Some x)
  else if (length (state k) =? 0) && (length (cache k) =? 1) then
    x <- py_index (cache k) 0 ;; ret (Some x)
  else ret None.

(** [if ':' in s or ',' in s: s = "({})".format(s)]. *)
Definition parenthesize (s : option string) : M heap (option string) :=
  b <- (b1 <- py_in PyStr.colon s ;;
        if b1 : bool then ret true else py_in PyStr.comma s) ;;
  if b : bool then ret (Some ("(" +:+ format_str s +:+ ")")) else ret s.

Definition _generic_combine (self other : ref) (token : string) : M heap ref :=
  if decide (other = self) then
    k <- get self ;;
    (if length (cache k) =? 2 then
       c0 <- py_index (cache k) 0 ;;
       c1 <- py_index (cache k) 1 ;;
       state_append self (c0 +:+ token +:+ c1)
     else if (length (cache k) =? 1) && (length (state k) =? 1) then
       c0 <- py_index (cache k) 0 ;;
       s0 <- py_index (state k) 0 ;;
       assign_state self [c0 +:+ token +:+ "(" +:+ s0 +:+ ")"]
     else if length (state k) =? 2 then
       s0 <- py_index (state k) 0 ;;
       s1 <- py_index (state k) 1 ;;
       assign_state self ["(" +:+ s0 +:+ ")" +:+ token +:+ "(" +:+ s1 +:+ ")"]
     else raise ValueError) ;;
    assign_cache self [] ;;
    ret self
  else
    ks <- get self ;;
    s <- pick ks ;;
    s <- parenthesize s ;;
    ko <- get other ;;
    o <- pick ko ;;
    o <- parenthesize o ;;
    py_assert (is_not_None s) ;;
    py_assert (is_not_None o) ;;
    result <- __init__ None (Some [format_str s +:+ token +:+ format_str o]) ;;
    ks <- get self ;;
    ko <- get other ;;
    assign_classes result (classes ks ∪ classes ko) ;;
    ret result.

Definition __and__ (self other : ref) : M heap ref :=
  _generic_combine self other ",".

Definition __or__ (self other : ref) : M heap ref :=
  _generic_combine self other ":".

(** The text written back by either branch of [__invert__]: all ['!']
    removed when there is one, otherwise ['!'] put after every ['(']. *)
Definition toggled (s : string) : string :=
  if PyStr.contains PyStr.bang s then PyStr.replace PyStr.bang "" s
  else PyStr.replace PyStr.lparen "(!" s.

Definition __invert__ (self : ref) : M heap ref :=
  k <- get self ;;
  py_assert ((length (state k) =? 1) || (length (cache k) =? 1)) ;;
  (if length (state k) =? 1 then
     s0 <- py_index (state k) 0 ;;
     assign_state self (<[0 := toggled s0]> (state k))
   else if length (cache k) =? 1 then
     c0 <- py_index (cache k) 0 ;;
     assign_cache self (<[0 := toggled c0]> (cache k))
   else ret tt) ;;
  ret self.

End Keyword.

(** ** The module namespace: [_all_keywords], [_find_all], [reset] *)

Module Registry.

(** A member of the module [aflow.keywords]: an instance of [Keyword] (or
    of a subclass), or anything else (a class, a function, an import, the
    list [_all_keywords]); for the latter, whether it accepts attribute
    assignment. *)
Inductive pyobj : Type :=
| Instance (r : Keyword.ref)
| Other (settable : bool).

Definition isinstance_Keyword (o : pyobj) : bool :=
  match o with Instance _ => true | Other _ => false end.

(** The interpreter state the module functions work on: the object heap,
    the module's members as [inspect.getmembers] lists them, and the global
    [_all_keywords]. *)
Record world : Type := mk {
  objects : Keyword.heap;
  members : list (string * pyobj);
  _all_keywords : list string
}.

(** A method call inside a module function. *)
Definition on_heap {A} (m : M Keyword.heap A) : M world A :=
  fun w =>
    match m (objects w) with
    | Return a h => Return a (mk h (members w) (_all_keywords w))
    | Raise e h => Raise e (mk h (members w) (_all_keywords w))
    | Stuck => Stuck
    end.

Definition read : M world world := fun w => Return w w.

(** [_all_keywords.append(n)]. *)
Definition all_keywords_append (n : string) : M world unit :=
  fun w => Return tt (mk (objects w) (members w) (_all_keywords w ++ [n])).

Fixpoint assoc (n : string) (l : list (string * pyobj)) : option pyobj :=
  match l with
  | [] => None
  | (n', o) :: l' => if String.eqb n' n then Some o else assoc n l'
  end.

(** [getattr(self, n)] on the module. *)
Definition getattr (n : string) : M world pyobj :=
  w <- read ;;
  match assoc n (members w) with
  | Some o => ret o
  | None => raise AttributeError
  end.

(** [cls.state = v] and [cls.cache = v] on a module member. *)
Definition setattr_state (cls : pyobj) (v : list string) : M world unit :=
  match cls with
  | Instance r => on_heap (Keyword.assign_state r v)
  | Other true => ret tt
  | Other false => raise AttributeError
  end.

Definition setattr_cache (cls : pyobj) (v : list string) : M world unit :=
  match cls with
  | Instance r => on_heap (Keyword.assign_cache r v)
  | Other true => ret tt
  | Other false => raise AttributeError
  end.

Definition _find_all : M world unit :=
  w <- read ;;
  if length (_all_keywords w) =? 0 then
    for_each (members w) (fun no =>
      if isinstance_Keyword (snd no) then all_keywords_append (fst no)
      else ret tt)
  else ret tt.

Definition reset : M world unit :=
  _find_all ;;
  w <- read ;;
  for_each (_all_keywords w) (fun n =>
    cls <- getattr n ;;
    setattr_state cls [] ;;
    setattr_cache cls []).


End Registry.

(** * What the methods compute, as functions of one instance

    The text each operator appends, the text [__str__] returns and the
    buffers each branch leaves, read off the method bodies above. The lemmas
    of the next part relate them to the methods run on the heap. *)

Import Keyword.

(** The value [__str__] returns. *)
Definition str_of (k : t) : option string :=
  match state k with
  | [s] => Some s
  | _ => match cache k with
         | [c] => Some c
         | _ => name k
         end
  end.

(** The entries [==], [<] and [>] append to the cache. *)
Definition eq_entry (nm : option string) (v : value) : string :=
  if is_string_types v then format_str nm +:+ "('" +:+ format_value v +:+ "')"
  else format_str nm +:+ "(" +:+ format_value v +:+ ")".

Definition lt_entry (nm : option string) (v : value) : string :=
  if is_string_types v then format_str nm +:+ "(*'" +:+ format_value v +:+ "')"
  else format_str nm +:+ "(*" +:+ format_value v +:+ ")".

Definition gt_entry (nm : option string) (v : value) : string :=
  if is_string_types v then format_str nm +:+ "('" +:+ format_value v +:+ "'*)"
  else format_str nm +:+ "(" +:+ format_value v +:+ "*)".

(** The instance a self-combination [x & x] or [x | x] leaves, or [None]
    where it raises [ValueError]. *)
Definition self_combined (k : t) (token : string) : option t :=
  match cache k, state k with
  | [c0; c1], st =>
      Some (mk (name k) (st ++ [c0 +:+ token +:+ c1]) [] (classes k))
  | [c0], [s0] =>
      Some (mk (name k) [c0 +:+ token +:+ "(" +:+ s0 +:+ ")"] [] (classes k))
  | _, [s0; s1] =>
      Some (mk (name k) ["(" +:+ s0 +:+ ")" +:+ token +:+ "(" +:+ s1 +:+ ")"] []
               (classes k))
  | _, _ => None
  end.

(** The three buffer shapes a self-combination accepts. *)
Definition valid_self_pattern (k : t) : Prop :=
  length (cache k) = 2 \/
  (length (cache k) = 1 /\ length (state k) = 1) \/
  length (state k) = 2.

(** The single resolved string of an operand of a cross-node combination. *)
Definition resolved (k : t) : option string :=
  match state k, cache k with
  | [s], [] => Some s
  | [], [c] => Some c
  | _, _ => None
  end.

(** An operand in parentheses when it holds [':'] or [',']. *)
Definition wrap (s : string) : string :=
  if PyStr.contains PyStr.colon s || PyStr.contains PyStr.comma s
  then "(" +:+ s +:+ ")" else s.

(** The node a cross-node combination constructs. *)
Definition combined (ks ko : t) (s o token : string) : t :=
  mk None [wrap s +:+ token +:+ wrap o] [] (classes ks ∪ classes ko).

(** The instance a negation leaves, or [None] where its assertion fails. *)
Definition inverted (k : t) : option t :=
  match state k with
  | [s] => Some (set_state k [toggled s])
  | _ => match cache k with
         | [c] => Some (set_cache k [toggled c])
         | _ => None
         end
  end.

(** A field-prototype node as the module creates it: [_f()] for the
    subclass [_f] whose [name] is [f]. *)
Definition prototype (f : string) : t := mk (Some f) [] [] {[ Some f ]}.

(** The scenario [(Egap > 1.0) & (Egap_type == 'insulator')] from the two
    prototypes as the module creates them; the float [1.0] is carried by its
    [str], the text [1.0]. *)
Definition egap_scenario : M heap ref :=
  egap <- __init__ (Some "Egap") None ;;
  egap_type <- __init__ (Some "Egap_type") None ;;
  l <- __gt__ egap (VObj "1.0") ;;
  r <- __eq__ egap_type (VStr "insulator") ;;
  __and__ l r.

(** [(x > lo) & (x < hi)] with both operands the one instance [x]. *)
Definition pair_bounds (x : ref) (lo hi : Z) : M heap ref :=
  l <- __gt__ x (VInt lo) ;;
  r <- __lt__ x (VInt hi) ;;
  __and__ l r.

(** [Egap & (Egap_type == 'insulator')]: the left operand is the untouched
    prototype, with nothing in [state] or [cache]. *)
Definition unresolved_left_scenario : M heap ref :=
  egap <- __init__ (Some "Egap") None ;;
  egap_type <- __init__ (Some "Egap_type") None ;;
  r <- __eq__ egap_type (VStr "insulator") ;;
  __and__ egap r.

(** [(Egap > 1.0) | Egap_type]: the right operand is the untouched
    prototype. *)
Definition unresolved_right_scenario : M heap ref :=
  egap <- __init__ (Some "Egap") None ;;
  egap_type <- __init__ (Some "Egap_type") None ;;
  l <- __gt__ egap (VObj "1.0") ;;
  __or__ l egap_type.

(** [~x] after [(x > 1) & (x < 2)] and [x > 3] on the one instance [x]: the
    node holds one state entry and one cache entry. *)
Definition invert_one_and_one (x : ref) : M heap ref :=
  pair_bounds x 1 2 ;;
  x' <- __gt__ x (VInt 3) ;;
  __invert__ x'.

(** [(~(Egap == 1)) & (nspecies == 2)] from the two prototypes. *)
Definition negated_left_scenario : M heap ref :=
  f <- __init__ (Some "Egap") None ;;
  g <- __init__ (Some "nspecies") None ;;
  l <- __eq__ f (VInt 1) ;;
  l <- __invert__ l ;;
  r <- __eq__ g (VInt 2) ;;
  __and__ l r.

(** A text with no negation marker, and a text that is the negation of
    one: ['!'] after every ['('] and nowhere else. *)
Definition unmarked (t : string) : Prop :=
  PyStr.contains PyStr.bang t = false.

Definition marked_throughout (t : string) : Prop :=
  exists u, unmarked u /\ t = PyStr.replace PyStr.lparen "(!" u.

(** An instance after [reset]'s two assignments. *)
Definition cleared (k : t) : t := mk (name k) [] [] (classes k).

(** The names the loop of [_find_all] appends: those of the members that
    are instances of [Keyword], in the order of the members. *)
Fixpoint discovered (l : list (string * Registry.pyobj)) : list string :=
  match l with
  | [] => []
  | (n, o) :: l' =>
      if Registry.isinstance_Keyword o then n :: discovered l' else discovered l'
  end.

(** ** [load] and the caller's dictionary *)

Module Loader.

(** What [load(target)] works on: the interpreter state of the module and
    the caller's dictionary [target], which [load] mutates in place. *)
Record store : Type := mk {
  world : Registry.world;
  target : gmap string Registry.pyobj
}.

(** A module function called from [load]. *)
Definition in_module {A} (m : M Registry.world A) : M store A :=
  fun s =>
    match m (world s) with
    | Return a w => Return a (mk w (target s))
    | Raise e w => Raise e (mk w (target s))
    | Stuck => Stuck
    end.

Definition read : M store store := fun s => Return s s.

(** [target[n] = o]. *)
Definition target_setitem (n : string) (o : Registry.pyobj) : M store unit :=
  fun s => Return tt (mk (world s) (<[n := o]> (target s))).

Definition load : M store unit :=
  in_module Registry._find_all ;;
  s <- read ;;
  for_each (Registry._all_keywords (world s)) (fun n =>
    cls <- in_module (Registry.getattr n) ;;
    target_setitem n cls).

End Loader.

(** ** Further expressions *)

(** [((x > a) & (x < b)) | ((x > c) & (x < d))] with every operand the one
    instance [x]. *)
Definition two_ranges (x : ref) (a b c d : Z) : M heap ref :=
  l <- pair_bounds x a b ;;
  r <- pair_bounds x c d ;;
  __or__ l r.

(** [(x == v) & y] or [(x == v) | y]: a comparison on [x], then a
    combination with another node. *)
Definition compare_then_combine (x y : ref) (v : value) (token : string) : M heap ref :=
  l <- __eq__ x v ;;
  _generic_combine l y token.

(** The three in-place negations [~(~(~x))]. *)
Definition invert_thrice (x : ref) : M heap ref :=
  a <- __invert__ x ;;
  b <- __invert__ a ;;
  __invert__ b.

(** * Properties *)

(** ** Running the heap primitives on a live reference *)

Section Primitives.

Variables (h : heap) (r : ref) (k : t).
Hypothesis Hlive : h !! r = Some k.

Lemma get_live : get r h = Return k h.
Proof using Hlive. unfold get. now rewrite Hlive. Qed.

Lemma put_live k' : put r k' h = Return tt (<[r := k']> h).
Proof using Hlive. unfold put. now rewrite Hlive. Qed.

Lemma lookup_put_same k' : <[r := k']> h !! r = Some k'.
Proof using Hlive.
  apply list_lookup_insert_eq. eapply lookup_lt_Some, Hlive.
Qed.

Lemma lookup_put_other k' r' : r' ≠ r -> <[r := k']> h !! r' = h !! r'.
Proof. intros Hne. apply list_lookup_insert_ne. congruence. Qed.

Lemma cache_append_live x :
  cache_append r x h = Return tt (<[r := set_cache k (cache k ++ [x])]> h).
Proof using Hlive.
  unfold cache_append, bind. rewrite get_live. apply put_live.
Qed.

Lemma state_append_live x :
  state_append r x h = Return tt (<[r := set_state k (state k ++ [x])]> h).
Proof using Hlive.
  unfold state_append, bind. rewrite get_live. apply put_live.
Qed.

Lemma assign_state_live v :
  assign_state r v h = Return tt (<[r := set_state k v]> h).
Proof using Hlive.
  unfold assign_state, bind. rewrite get_live. apply put_live.
Qed.

Lemma assign_cache_live v :
  assign_cache r v h = Return tt (<[r := set_cache k v]> h).
Proof using Hlive.
  unfold assign_cache, bind. rewrite get_live. apply put_live.
Qed.

Lemma assign_classes_live v :
  assign_classes r v h = Return tt (<[r := set_classes k v]> h).
Proof using Hlive.
  unfold assign_classes, bind. rewrite get_live. apply put_live.
Qed.

End Primitives.

Lemma insert_twice (h : heap) (r : ref) (k1 k2 : t) :
  <[r := k2]> (<[r := k1]> h) = <[r := k2]> h.
Proof. apply list_insert_insert_eq. Qed.

(** ** Stringification as a function of the instance *)

Lemma str_live (h : heap) (r : ref) (k : t) :
  h !! r = Some k -> __str__ r h = Return (str_of k) h.
Proof.
  intros Hk. unfold __str__, bind, str_of. rewrite (get_live _ _ _ Hk).
  destruct (state k) as [|s [|s' st]]; simpl;
    destruct (cache k) as [|c [|c' ca]]; reflexivity.
Qed.

(** ** Comparison operators as functions of the instance *)

Lemma eq_live (h : heap) (r : ref) (k : t) (v : value) :
  h !! r = Some k ->
  __eq__ r v h = Return r (<[r := set_cache k (cache k ++ [eq_entry (name k) v])]> h).
Proof.
  intros Hk. unfold __eq__, bind, eq_entry. rewrite (get_live _ _ _ Hk).
  destruct (is_string_types v); now rewrite (cache_append_live _ _ _ Hk).
Qed.

Lemma lt_live (h : heap) (r : ref) (k : t) (v : value) :
  h !! r = Some k ->
  __lt__ r v h = Return r (<[r := set_cache k (cache k ++ [lt_entry (name k) v])]> h).
Proof.
  intros Hk. unfold __lt__, bind, lt_entry. rewrite (get_live _ _ _ Hk).
  destruct (is_string_types v); now rewrite (cache_append_live _ _ _ Hk).
Qed.

Lemma gt_live (h : heap) (r : ref) (k : t) (v : value) :
  h !! r = Some k ->
  __gt__ r v h = Return r (<[r := set_cache k (cache k ++ [gt_entry (name k) v])]> h).
Proof.
  intros Hk. unfold __gt__, bind, gt_entry. rewrite (get_live _ _ _ Hk).
  destruct (is_string_types v); now rewrite (cache_append_live _ _ _ Hk).
Qed.

(** ** Equality comparison *)

(** C1. On a field-prototype node (name [f]) with empty [state] and [cache],
    [node == v] returns the same node; the heap changes at that node only;
    its cache holds exactly one entry, its state is still empty, its name and
    classes are as before; and [str(node)] is [f('v')] for a text [v] and
    [f(v)], with [v] as [format] renders it, for any other [v] (the decimal
    numeral for an [int]). *)
Theorem C1_eq_appends_one_entry (h : heap) (self : ref) (k : t) (f : string) (v : value) :
  h !! self = Some k ->
  name k = Some f ->
  state k = [] ->
  cache k = [] ->
  let entry :=
    match v with
    | VStr s => f +:+ "('" +:+ s +:+ "')"
    | VInt z => f +:+ "(" +:+ pretty z +:+ ")"
    | VObj txt => f +:+ "(" +:+ txt +:+ ")"
    end in
  exists h' k',
    __eq__ self v h = Return self h' /\
    h' !! self = Some k' /\
    (forall r, r ≠ self -> h' !! r = h !! r) /\
    length h' = length h /\
    cache k' = [entry] /\
    state k' = [] /\
    name k' = name k /\
    classes k' = classes k /\
    __str__ self h' = Return (Some entry) h'.
Proof.
  intros Hk Hname Hstate Hcache entry.
  exists (<[self := set_cache k (cache k ++ [eq_entry (name k) v])]> h),
         (set_cache k (cache k ++ [eq_entry (name k) v])).
  assert (Hentry : eq_entry (name k) v = entry).
  { unfold eq_entry, entry. rewrite Hname. now destruct v. }
  split; [now apply eq_live|].
  split; [eapply lookup_put_same, Hk|].
  split; [intros r Hr; now apply lookup_put_other|].
  split; [apply length_insert|].
  rewrite Hcache, Hentry. simpl.
  repeat split; try assumption.
  erewrite str_live by (eapply lookup_put_same, Hk).
  unfold str_of. simpl. now rewrite Hstate.
Qed.

(** The instance [C1] at the prototype [Egap_type] and the text
    [insulator]. *)
Lemma C1_eq_appends_one_entry_witness :
  exists h' k',
    __eq__ 0 (VStr "insulator") [mk (Some "Egap_type") [] [] {[ Some "Egap_type" ]}]
      = Return 0 h' /\
    h' !! 0 = Some k' /\
    cache k' = ["Egap_type('insulator')"] /\
    state k' = [] /\
    __str__ 0 h' = Return (Some "Egap_type('insulator')") h'.
Proof.
  destruct (C1_eq_appends_one_entry
              [mk (Some "Egap_type") [] [] {[ Some "Egap_type" ]}] 0
              (mk (Some "Egap_type") [] [] {[ Some "Egap_type" ]})
              "Egap_type" (VStr "insulator")
              eq_refl eq_refl eq_refl eq_refl)
    as (h' & k' & Hrun & Hk' & _ & _ & Hc & Hs & _ & _ & Hstr).
  exists h', k'. repeat split; assumption.
Defined.

(** ** Boolean combination and negation as functions of the instances *)

Lemma self_combine_live (h : heap) (r : ref) (k : t) (token : string) :
  h !! r = Some k ->
  _generic_combine r r token h =
    match self_combined k token with
    | Some k' => Return r (<[r := k']> h)
    | None => Raise ValueError h
    end.
Proof.
  intros Hk. unfold _generic_combine, self_combined.
  destruct (decide (r = r)) as [_|Hne]; [|congruence].
  unfold bind at 1. rewrite (get_live _ _ _ Hk).
  destruct (cache k) as [|c0 [|c1 [|c2 ca]]] eqn:Hc;
    destruct (state k) as [|s0 [|s1 [|s2 st]]] eqn:Hs; simpl;
    unfold bind, py_index, raise; simpl;
    rewrite ?(state_append_live _ _ _ Hk), ?(assign_state_live _ _ _ Hk);
    try reflexivity;
    erewrite assign_cache_live by (eapply lookup_put_same, Hk);
    rewrite insert_twice; unfold set_cache, set_state; simpl;
    rewrite ?Hs; reflexivity.
Qed.

Lemma pick_run (k : t) (h : heap) : pick k h = Return (resolved k) h.
Proof.
  unfold pick, resolved.
  destruct (state k) as [|s0 [|s1 st]]; destruct (cache k) as [|c0 [|c1 ca]];
    reflexivity.
Qed.

Lemma parenthesize_Some (s : string) (h : heap) :
  parenthesize (Some s) h = Return (Some (wrap s)) h.
Proof.
  unfold parenthesize, wrap, bind, py_in, ret. simpl.
  destruct (PyStr.contains PyStr.colon s); simpl; [reflexivity|].
  destruct (PyStr.contains PyStr.comma s); reflexivity.
Qed.

Lemma parenthesize_None (h : heap) : parenthesize None h = Raise TypeError h.
Proof. reflexivity. Qed.

Lemma insert_last (h : heap) (k k' : t) :
  <[length h := k']> (h ++ [k]) = h ++ [k'].
Proof.
  rewrite insert_app_r_alt by lia. now rewrite Nat.sub_diag.
Qed.

Lemma cross_combine_live (h : heap) (self other : ref) (ks ko : t) (token : string) :
  other ≠ self ->
  h !! self = Some ks ->
  h !! other = Some ko ->
  _generic_combine self other token h =
    match resolved ks, resolved ko with
    | Some s, Some o => Return (length h) (h ++ [combined ks ko s o token])
    | _, _ => Raise TypeError h
    end.
Proof.
  intros Hne Hs Ho. unfold _generic_combine.
  destruct (decide (other = self)) as [Heq|_]; [congruence|].
  unfold bind at 1. rewrite (get_live _ _ _ Hs).
  unfold bind at 1. rewrite pick_run.
  destruct (resolved ks) as [s|].
  2:{ unfold bind at 1. rewrite parenthesize_None.
      now destruct (resolved ko). }
  unfold bind at 1. rewrite parenthesize_Some.
  unfold bind at 1. rewrite (get_live _ _ _ Ho).
  unfold bind at 1. rewrite pick_run.
  destruct (resolved ko) as [o|].
  2:{ unfold bind at 1. now rewrite parenthesize_None. }
  unfold bind at 1. rewrite parenthesize_Some.
  unfold bind, py_assert, ret, __init__, alloc. simpl.
  assert (Hs' : (h ++ [mk None [wrap s +:+ token +:+ wrap o] [] {[None]}]) !! self
                = Some ks) by now apply lookup_app_l_Some.
  assert (Ho' : (h ++ [mk None [wrap s +:+ token +:+ wrap o] [] {[None]}]) !! other
                = Some ko) by now apply lookup_app_l_Some.
  rewrite (get_live _ _ _ Hs'), (get_live _ _ _ Ho').
  erewrite assign_classes_live by (apply list_lookup_middle; reflexivity).
  now rewrite insert_last.
Qed.

Lemma invert_live (h : heap) (r : ref) (k : t) :
  h !! r = Some k ->
  __invert__ r h =
    match inverted k with
    | Some k' => Return r (<[r := k']> h)
    | None => Raise AssertionError h
    end.
Proof.
  intros Hk. unfold __invert__, inverted.
  unfold bind at 1. rewrite (get_live _ _ _ Hk).
  destruct (state k) as [|s0 [|s1 st]] eqn:Hs;
    destruct (cache k) as [|c0 [|c1 ca]] eqn:Hc; simpl;
    unfold bind, py_assert, py_index, raise, ret; simpl;
    rewrite ?(assign_state_live _ _ _ Hk), ?(assign_cache_live _ _ _ Hk);
    reflexivity.
Qed.

(** ** Two bounds on one field *)

(** C2. From the [nspecies] prototype with empty [state] and [cache],
    [nspecies > 2] then [nspecies < 5] leave two cache entries [c0], [c1];
    [nspecies & nspecies] on that one instance then leaves the single state
    entry [c0 + ',' + c1] and an empty cache, and the node stringifies to
    the lower-bound entry for 2 and the upper-bound entry for 5 joined by a
    comma. *)
Theorem C2_nspecies_two_bounds (h : heap) (x : ref) (k : t) :
  h !! x = Some k ->
  name k = Some "nspecies" ->
  state k = [] ->
  cache k = [] ->
  exists h1 h2 h3 k2 k3 c0 c1,
    __gt__ x (VInt 2) h = Return x h1 /\
    __lt__ x (VInt 5) h1 = Return x h2 /\
    h2 !! x = Some k2 /\
    state k2 = [] /\
    cache k2 = [c0; c1] /\
    __and__ x x h2 = Return x h3 /\
    h3 !! x = Some k3 /\
    state k3 = [c0 +:+ "," +:+ c1] /\
    cache k3 = [] /\
    __str__ x h3 = Return (Some "nspecies(2*),nspecies(*5)") h3.
Proof.
  intros Hk Hname Hstate Hcache.
  set (k1 := set_cache k (cache k ++ [gt_entry (name k) (VInt 2)])).
  set (k2 := set_cache k1 (cache k1 ++ [lt_entry (name k1) (VInt 5)])).
  set (k3 := mk (name k) ["nspecies(2*),nspecies(*5)"] [] (classes k)).
  assert (H1 : <[x := k1]> h !! x = Some k1) by (eapply lookup_put_same, Hk).
  assert (H2 : <[x := k2]> (<[x := k1]> h) !! x = Some k2)
    by (eapply lookup_put_same, H1).
  assert (Hself : self_combined k2 "," = Some k3).
  { unfold self_combined, k2, k1, k3. simpl. rewrite Hcache, Hstate, Hname.
    reflexivity. }
  exists (<[x := k1]> h), (<[x := k2]> (<[x := k1]> h)),
         (<[x := k3]> (<[x := k2]> (<[x := k1]> h))),
         k2, k3, "nspecies(2*)", "nspecies(*5)".
  split; [now apply gt_live|].
  split; [now apply lt_live|].
  split; [exact H2|].
  split; [exact Hstate|].
  split; [unfold k2, k1; simpl; now rewrite Hcache, Hname|].
  split; [unfold __and__; rewrite (self_combine_live _ _ _ _ H2);
          now rewrite Hself|].
  split; [eapply lookup_put_same, H2|].
  split; [reflexivity|].
  split; [reflexivity|].
  erewrite str_live by (eapply lookup_put_same, H2). reflexivity.
Qed.

(** The scenario of [C2] run from the heap that holds the [nspecies]
    prototype alone. *)
Lemma C2_nspecies_two_bounds_witness :
  exists h1 h2 h3,
    __gt__ 0 (VInt 2) [prototype "nspecies"] = Return 0 h1 /\
    __lt__ 0 (VInt 5) h1 = Return 0 h2 /\
    __and__ 0 0 h2 = Return 0 h3 /\
    __str__ 0 h3 = Return (Some "nspecies(2*),nspecies(*5)") h3.
Proof.
  destruct (C2_nspecies_two_bounds [prototype "nspecies"] 0 (prototype "nspecies")
              eq_refl eq_refl eq_refl eq_refl)
    as (h1 & h2 & h3 & k2 & k3 & c0 & c1 & Hgt & Hlt & _ & _ & _ & Hand & _ & _ & _ & Hstr).
  exists h1, h2, h3. repeat split; assumption.
Defined.

(** ** Combining two different nodes *)

(** C3. [a & b] on two distinct nodes that each hold exactly one pending
    comparison ([ca], [cb]) and no state returns a reference that was not in
    the heap; the new node stringifies to [ca] and [cb] joined by a comma
    (each in parentheses if it holds a colon or a comma), its classes are the
    union of the operands' classes, and both operands are in the heap exactly
    as before. For [(Egap > 1.0) & (Egap_type == 'insulator')] from the two
    prototypes the string is the lower-bound entry of [Egap] for [1.0], a
    comma and the equality entry of [Egap_type] for ['insulator'], and the
    classes are [{Egap, Egap_type}]. *)
Theorem C3_cross_and_builds_new_node :
  (forall (h : heap) (a b : ref) (ka kb : t) (ca cb : string),
      a ≠ b ->
      h !! a = Some ka ->
      h !! b = Some kb ->
      state ka = [] -> cache ka = [ca] ->
      state kb = [] -> cache kb = [cb] ->
      exists (new : ref) (h' : heap) (kn : t),
        __and__ a b h = Return new h' /\
        h !! new = None /\
        h' !! new = Some kn /\
        __str__ new h' = Return (Some (wrap ca +:+ "," +:+ wrap cb)) h' /\
        classes kn = classes ka ∪ classes kb /\
        h' !! a = Some ka /\
        h' !! b = Some kb) /\
  (exists (new : ref) (h' : heap) (kn : t),
      egap_scenario [] = Return new h' /\
      h' !! new = Some kn /\
      new ≠ 0 /\ new ≠ 1 /\
      __str__ new h' = Return (Some "Egap(1.0*),Egap_type('insulator')") h' /\
      classes kn = {[ Some "Egap"; Some "Egap_type" ]} /\
      h' !! 0 = Some (mk (Some "Egap") [] ["Egap(1.0*)"] {[ Some "Egap" ]}) /\
      h' !! 1 = Some (mk (Some "Egap_type") [] ["Egap_type('insulator')"]
                         {[ Some "Egap_type" ]})).
Proof.
  split.
  - intros h a b ka kb ca cb Hne Ha Hb Hsa Hca Hsb Hcb.
    exists (length h), (h ++ [combined ka kb ca cb ","]), (combined ka kb ca cb ",").
    assert (Hnew : (h ++ [combined ka kb ca cb ","]) !! length h
                   = Some (combined ka kb ca cb ","))
      by (apply list_lookup_middle; reflexivity).
    split.
    { unfold __and__. rewrite (cross_combine_live h a b ka kb) by congruence.
      unfold resolved. now rewrite Hsa, Hca, Hsb, Hcb. }
    split; [apply lookup_ge_None_2; lia|].
    split; [exact Hnew|].
    split; [now rewrite (str_live _ _ _ Hnew)|].
    split; [reflexivity|].
    split; now apply lookup_app_l_Some.
  - exists 2. eexists. eexists.
    split; [reflexivity|].
    split; [reflexivity|].
    repeat split; discriminate.
Qed.

(** The first part of [C3] at the heap the scenario reaches before [&]. *)
Lemma C3_cross_and_builds_new_node_witness :
  exists (new : ref) (h' : heap),
    __and__ 0 1 [mk (Some "Egap") [] ["Egap(1.0*)"] {[ Some "Egap" ]};
                 mk (Some "Egap_type") [] ["Egap_type('insulator')"]
                    {[ Some "Egap_type" ]}]
      = Return new h' /\
    __str__ new h' = Return (Some "Egap(1.0*),Egap_type('insulator')") h'.
Proof.
  destruct C3_cross_and_builds_new_node as [Hgen _].
  destruct (Hgen [mk (Some "Egap") [] ["Egap(1.0*)"] {[ Some "Egap" ]};
                  mk (Some "Egap_type") [] ["Egap_type('insulator')"]
                     {[ Some "Egap_type" ]}]
                 0 1 _ _ "Egap(1.0*)" "Egap_type('insulator')"
                 ltac:(discriminate) eq_refl eq_refl eq_refl eq_refl eq_refl eq_refl)
    as (new & h' & kn & Hrun & _ & _ & Hstr & _).
  exists new, h'. split; [exact Hrun | exact Hstr].
Defined.

(** ** Combining a node with itself *)

Lemma self_combine_inv (h h' : heap) (x r : ref) (k : t) (token : string) :
  h !! x = Some k ->
  _generic_combine x x token h = Return r h' ->
  exists k', self_combined k token = Some k' /\ r = x /\ h' = <[x := k']> h.
Proof.
  intros Hk Hrun. rewrite (self_combine_live _ _ _ _ Hk) in Hrun.
  destruct (self_combined k token) as [k'|]; [|discriminate].
  exists k'. now inversion Hrun.
Qed.

Lemma self_combined_valid (k : t) (token : string) :
  valid_self_pattern k <-> is_Some (self_combined k token).
Proof.
  unfold valid_self_pattern, self_combined.
  destruct (cache k) as [|c0 [|c1 [|c2 ca]]];
    destruct (state k) as [|s0 [|s1 [|s2 st]]]; simpl;
    split; intros H;
    solve [ eauto
          | destruct H as [H|[[H1 H2]|H]]; discriminate
          | destruct H as [? H]; discriminate
          | auto ].
Qed.

(** C4, counterexample. After [(x > 1) & (x < 2)] has settled one
    state entry, [(x > 3) & (x < 4)] on the same instance returns normally
    and leaves two state entries, the second pair after the first; a third
    pair leaves three. *)
Lemma C4_second_pair_appends :
  (exists h' k',
      (pair_bounds 0 1 2 ;; pair_bounds 0 3 4) [prototype "nspecies"]
        = Return 0 h' /\
      h' !! 0 = Some k' /\
      state k' = ["nspecies(1*),nspecies(*2)"; "nspecies(3*),nspecies(*4)"] /\
      ~ (length (state k') = 1 /\ cache k' = [])) /\
  (exists h' k',
      (pair_bounds 0 1 2 ;; pair_bounds 0 3 4 ;; pair_bounds 0 5 6)
        [prototype "nspecies"] = Return 0 h' /\
      h' !! 0 = Some k' /\
      state k' = ["nspecies(1*),nspecies(*2)"; "nspecies(3*),nspecies(*4)";
                  "nspecies(5*),nspecies(*6)"] /\
      ~ length (state k') <= 2).
Proof.
  split.
  - eexists. eexists. split; [reflexivity|]. split; [reflexivity|].
    split; [reflexivity|]. simpl. intros [H _]. discriminate.
  - eexists. eexists. split; [reflexivity|]. split; [reflexivity|].
    split; [reflexivity|]. simpl. lia.
Qed.

(** C4, amended. A self-combination entered in one of the three accepted
    buffer shapes returns the same node. Whenever it returns, the cache is
    empty afterwards and the node's name and classes are as before; the
    state holds exactly one entry if the call was entered with a cache not
    of length two or with an empty state, and exactly two entries if it was
    entered with two cache entries and one state entry. Entered with two
    cache entries [c0], [c1] and at most one state entry, the state
    afterwards is the state before followed by [c0 + token + c1]: the joined
    pair is appended after the existing entry. Entered with at most one
    state entry, the state has at most two entries afterwards. *)
Theorem C4_self_combination_result
    (h h' : heap) (x r : ref) (k : t) (token : string) :
  h !! x = Some k ->
  (valid_self_pattern k -> exists h1, _generic_combine x x token h = Return x h1) /\
  (_generic_combine x x token h = Return r h' ->
   r = x /\
   exists k',
     h' !! x = Some k' /\
     cache k' = [] /\
     name k' = name k /\
     classes k' = classes k /\
     (length (cache k) ≠ 2 \/ length (state k) = 0 -> length (state k') = 1) /\
     (length (cache k) = 2 -> length (state k) = 1 -> length (state k') = 2) /\
     (forall c0 c1, cache k = [c0; c1] -> length (state k) <= 1 ->
                    state k' = state k ++ [c0 +:+ token +:+ c1]) /\
     (length (state k) <= 1 -> length (state k') <= 2)).
Proof.
  intros Hk. split.
  - intros Hvalid. apply (self_combined_valid k token) in Hvalid as [k' Hk'].
    exists (<[x := k']> h). rewrite (self_combine_live _ _ _ _ Hk). now rewrite Hk'.
  - intros Hrun.
    destruct (self_combine_inv _ _ _ _ _ _ Hk Hrun) as (k' & Hsc & -> & ->).
    split; [reflexivity|].
    exists k'. split; [eapply lookup_put_same, Hk|].
    unfold self_combined in Hsc.
    destruct (cache k) as [|c0 [|c1 [|c2 ca]]];
      destruct (state k) as [|s0 [|s1 [|s2 st]]];
      inversion Hsc; subst k'; simpl;
      repeat split; intros; try reflexivity; try lia;
      try match goal with
          | H : _ \/ _ |- _ => destruct H; simpl in *; congruence
          end;
      try match goal with
          | H : _ = [_; _] |- _ => inversion H; subst; reflexivity
          end.
Qed.

(** [C4] at the instance that holds one settled pair of bounds and a second
    pair pending: the second pair is joined and put after the first. *)
Lemma C4_self_combination_result_witness :
  exists h1 k',
    _generic_combine 0 0 ","
      [mk (Some "nspecies") ["nspecies(1*),nspecies(*2)"]
          ["nspecies(3*)"; "nspecies(*4)"] {[ Some "nspecies" ]}]
      = Return 0 h1 /\
    h1 !! 0 = Some k' /\
    cache k' = [] /\
    state k' = ["nspecies(1*),nspecies(*2)"; "nspecies(3*),nspecies(*4)"].
Proof.
  pose proof (C4_self_combination_result
                [mk (Some "nspecies") ["nspecies(1*),nspecies(*2)"]
                    ["nspecies(3*)"; "nspecies(*4)"] {[ Some "nspecies" ]}]
                [mk (Some "nspecies")
                    ["nspecies(1*),nspecies(*2)"; "nspecies(3*),nspecies(*4)"] []
                    {[ Some "nspecies" ]}]
                0 0
                (mk (Some "nspecies") ["nspecies(1*),nspecies(*2)"]
                    ["nspecies(3*)"; "nspecies(*4)"] {[ Some "nspecies" ]})
                "," eq_refl) as [_ Hret].
  destruct (Hret eq_refl) as (_ & k' & Hk' & Hc & _ & _ & _ & _ & Happ & _).
  eexists. exists k'. split; [reflexivity|].
  split; [exact Hk'|]. split; [exact Hc|].
  apply (Happ "nspecies(3*)" "nspecies(*4)"); [reflexivity | simpl; lia].
Defined.

(** C7. On a node whose buffer lengths fit none of the three accepted
    shapes, a self-combination raises [ValueError], and the heap at the raise
    is the heap of the call: the node's state and cache (and every other
    node) are as they were. *)
Theorem C7_self_combination_rejects
    (h : heap) (x : ref) (k : t) (token : string) :
  h !! x = Some k ->
  ~ valid_self_pattern k ->
  _generic_combine x x token h = Raise ValueError h.
Proof.
  intros Hk Hbad. rewrite (self_combine_live _ _ _ _ Hk).
  destruct (self_combined k token) as [k'|] eqn:Hsc; [|reflexivity].
  exfalso. apply Hbad. apply (self_combined_valid k token). now exists k'.
Qed.

(** [C7] at a prototype that holds a single pending comparison:
    [(x > 2) & x]. *)
Lemma C7_self_combination_rejects_witness :
  __and__ 0 0 [mk (Some "nspecies") [] ["nspecies(2*)"] {[ Some "nspecies" ]}]
  = Raise ValueError
      [mk (Some "nspecies") [] ["nspecies(2*)"] {[ Some "nspecies" ]}].
Proof.
  apply (C7_self_combination_rejects
           [mk (Some "nspecies") [] ["nspecies(2*)"] {[ Some "nspecies" ]}] 0
           (mk (Some "nspecies") [] ["nspecies(2*)"] {[ Some "nspecies" ]})
           "," eq_refl).
  unfold valid_self_pattern. simpl. lia.
Defined.

(** ** Unresolved operands of a cross-node combination *)


(** C6, what the code does at the failing inputs. With an operand that has
    nothing resolved, [':' in s] (or [':' in o]) is evaluated on [None]
    before [assert s is not None] is reached: the combination raises
    [TypeError], not [AssertionError], for [&] with the left operand
    unresolved and for [|] with the right operand unresolved; the heap is
    unchanged by the failed call. *)
Theorem C6_unresolved_operand_raises_TypeError :
  unresolved_left_scenario []
    = Raise TypeError
        [prototype "Egap";
         mk (Some "Egap_type") [] ["Egap_type('insulator')"] {[ Some "Egap_type" ]}] /\
  unresolved_right_scenario []
    = Raise TypeError
        [mk (Some "Egap") [] ["Egap(1.0*)"] {[ Some "Egap" ]};
         prototype "Egap_type"] /\
  unresolved_left_scenario []
    ≠ Raise AssertionError
        [prototype "Egap";
         mk (Some "Egap_type") [] ["Egap_type('insulator')"] {[ Some "Egap_type" ]}].
Proof.
  split; [reflexivity|]. split; [reflexivity|]. discriminate.
Qed.

(** ** The node a cross-node combination returns *)

Lemma cross_combine_inv
    (h h' : heap) (a b new : ref) (token : string) :
  b ≠ a ->
  _generic_combine a b token h = Return new h' ->
  exists ka kb s o,
    h !! a = Some ka /\ h !! b = Some kb /\
    resolved ka = Some s /\ resolved kb = Some o /\
    new = length h /\ h' = h ++ [combined ka kb s o token].
Proof.
  intros Hne Hrun.
  destruct (h !! a) as [ka|] eqn:Ha.
  2:{ unfold _generic_combine in Hrun.
      destruct (decide (b = a)); [congruence|].
      unfold bind at 1, get in Hrun. rewrite Ha in Hrun. discriminate. }
  destruct (h !! b) as [kb|] eqn:Hb.
  2:{ unfold _generic_combine in Hrun.
      destruct (decide (b = a)); [congruence|].
      unfold bind at 1 in Hrun. rewrite (get_live _ _ _ Ha) in Hrun.
      unfold bind at 1 in Hrun. rewrite pick_run in Hrun.
      destruct (resolved ka) as [s|].
      - unfold bind at 1 in Hrun. rewrite parenthesize_Some in Hrun.
        unfold bind at 1, get in Hrun. rewrite Hb in Hrun. discriminate.
      - unfold bind at 1 in Hrun. rewrite parenthesize_None in Hrun.
        discriminate. }
  rewrite (cross_combine_live _ _ _ _ _ _ Hne Ha Hb) in Hrun.
  destruct (resolved ka) as [s|] eqn:Hra; [|discriminate].
  destruct (resolved kb) as [o|] eqn:Hrb; [|discriminate].
  inversion Hrun. exists ka, kb, s, o. repeat split; auto.
Qed.

(** C10. The node returned by a cross-node combination that succeeds was not
    in the heap before; its state holds exactly one string, its cache is
    empty and its name is [None]. So it has a resolved string, negating it
    does not fail, and combining it on either side with any other node that
    has a resolved string succeeds as well. *)
Theorem C10_cross_result_is_settled
    (h h' : heap) (a b new : ref) (token : string) :
  b ≠ a ->
  _generic_combine a b token h = Return new h' ->
  h !! new = None /\
  exists kn,
    h' !! new = Some kn /\
    length (state kn) = 1 /\
    cache kn = [] /\
    name kn = None /\
    is_Some (resolved kn) /\
    (exists h2, __invert__ new h' = Return new h2) /\
    (forall (c : ref) (kc : t) (token' : string),
        c ≠ new ->
        h' !! c = Some kc ->
        is_Some (resolved kc) ->
        (exists r h2, _generic_combine new c token' h' = Return r h2) /\
        (exists r h2, _generic_combine c new token' h' = Return r h2)).
Proof.
  intros Hne Hrun.
  destruct (cross_combine_inv _ _ _ _ _ _ Hne Hrun)
    as (ka & kb & s & o & Ha & Hb & Hra & Hrb & -> & ->).
  split; [apply lookup_ge_None_2; lia|].
  exists (combined ka kb s o token).
  assert (Hnew : (h ++ [combined ka kb s o token]) !! length h
                 = Some (combined ka kb s o token))
    by (apply list_lookup_middle; reflexivity).
  split; [exact Hnew|].
  split; [reflexivity|]. split; [reflexivity|]. split; [reflexivity|].
  split; [now eexists|].
  split.
  - eexists. rewrite (invert_live _ _ _ Hnew). reflexivity.
  - intros c kc token' Hc Hkc [t' Ht']. split.
    + do 2 eexists.
      rewrite (cross_combine_live _ _ _ _ _ _ Hc Hnew Hkc), Ht'. reflexivity.
    + do 2 eexists.
      rewrite (cross_combine_live _ _ _ _ _ _ (not_eq_sym Hc) Hkc Hnew), Ht'.
      reflexivity.
Qed.

(** [C10] at the combination of the [Egap] scenario. *)
Lemma C10_cross_result_is_settled_witness :
  exists kn,
    [mk (Some "Egap") [] ["Egap(1.0*)"] {[ Some "Egap" ]};
     mk (Some "Egap_type") [] ["Egap_type('insulator')"] {[ Some "Egap_type" ]};
     mk None ["Egap(1.0*),Egap_type('insulator')"] []
        {[ Some "Egap"; Some "Egap_type" ]}] !! 2 = Some kn /\
    length (state kn) = 1 /\ cache kn = [] /\ name kn = None.
Proof.
  destruct (C10_cross_result_is_settled
              [mk (Some "Egap") [] ["Egap(1.0*)"] {[ Some "Egap" ]};
               mk (Some "Egap_type") [] ["Egap_type('insulator')"]
                  {[ Some "Egap_type" ]}]
              [mk (Some "Egap") [] ["Egap(1.0*)"] {[ Some "Egap" ]};
               mk (Some "Egap_type") [] ["Egap_type('insulator')"]
                  {[ Some "Egap_type" ]};
               mk None ["Egap(1.0*),Egap_type('insulator')"] []
                  {[ Some "Egap"; Some "Egap_type" ]}]
              0 1 2 "," ltac:(discriminate) eq_refl)
    as (_ & kn & Hkn & Hst & Hc & Hn & _).
  exists kn. repeat split; assumption.
Defined.

(** ** When negation fails *)

Lemma inverted_Some (k : t) :
  is_Some (inverted k) <-> length (state k) = 1 \/ length (cache k) = 1.
Proof.
  unfold inverted.
  destruct (state k) as [|s0 [|s1 st]]; destruct (cache k) as [|c0 [|c1 ca]];
    simpl; split; intros H;
    solve [ eauto
          | destruct H as [? H]; discriminate
          | destruct H; discriminate ].
Qed.

(** C8, counterexample. After [(x > 1) & (x < 2)] and [x > 3] the
    node holds one state entry and one cache entry, two entries together, and
    [~x] returns normally: it negates the state entry and leaves the cache
    entry as it is. *)
Lemma C8_one_state_one_cache_is_negated :
  exists h k h' k',
    (pair_bounds 0 1 2 ;; __gt__ 0 (VInt 3)) [prototype "nspecies"] = Return 0 h /\
    h !! 0 = Some k /\
    state k = ["nspecies(1*),nspecies(*2)"] /\
    cache k = ["nspecies(3*)"] /\
    length (state k) + length (cache k) ≠ 1 /\
    __invert__ 0 h = Return 0 h' /\
    invert_one_and_one 0 [prototype "nspecies"] = Return 0 h' /\
    h' !! 0 = Some k' /\
    state k' = ["nspecies(!1*),nspecies(!*2)"] /\
    cache k' = ["nspecies(3*)"].
Proof.
  do 4 eexists.
  split; [reflexivity|]. split; [reflexivity|].
  split; [reflexivity|]. split; [reflexivity|].
  split; [simpl; lia|]. split; [reflexivity|].
  split; [reflexivity|]. split; [reflexivity|]. split; reflexivity.
Qed.

(** C8, amended. Negation fails, with [AssertionError] and the heap
    unchanged, exactly when neither [state] nor [cache] holds exactly one
    entry: in particular when both are empty and when one holds two entries
    and the other none or two. When either holds exactly one entry (also
    when both do) it returns the node. With exactly one state entry it is
    the state entry that is negated (every ['!'] removed if it holds one,
    otherwise ['!'] put after every ['(']) and the cache is left as it is,
    whatever it holds; otherwise, with exactly one cache entry, that entry
    is negated and the state is left as it is. *)
Theorem C8_invert_fails_iff_no_single_entry (h : heap) (x : ref) (k : t) :
  h !! x = Some k ->
  (length (state k) ≠ 1 /\ length (cache k) ≠ 1 <->
   __invert__ x h = Raise AssertionError h) /\
  (length (state k) = 1 \/ length (cache k) = 1 <->
   exists h', __invert__ x h = Return x h') /\
  (forall s, state k = [s] ->
     exists h' k',
       __invert__ x h = Return x h' /\
       h' !! x = Some k' /\
       state k' = [if PyStr.contains PyStr.bang s
                   then PyStr.replace PyStr.bang "" s
                   else PyStr.replace PyStr.lparen "(!" s] /\
       cache k' = cache k) /\
  (forall c, length (state k) ≠ 1 -> cache k = [c] ->
     exists h' k',
       __invert__ x h = Return x h' /\
       h' !! x = Some k' /\
       cache k' = [if PyStr.contains PyStr.bang c
                   then PyStr.replace PyStr.bang "" c
                   else PyStr.replace PyStr.lparen "(!" c] /\
       state k' = state k).
Proof.
  intros Hk.
  assert (Hfail :
    (length (state k) ≠ 1 /\ length (cache k) ≠ 1 <->
     __invert__ x h = Raise AssertionError h) /\
    (length (state k) = 1 \/ length (cache k) = 1 <->
     exists h', __invert__ x h = Return x h')).
  { rewrite (invert_live _ _ _ Hk).
    pose proof (inverted_Some k) as Hiff.
    destruct (inverted k) as [k'|].
    - assert (Hone : length (state k) = 1 \/ length (cache k) = 1)
        by (apply Hiff; eauto).
      split; split.
      + intros [H1 H2]. destruct Hone; contradiction.
      + discriminate.
      + intros _. eauto.
      + intros _. exact Hone.
    - assert (Hnone : ~ (length (state k) = 1 \/ length (cache k) = 1)).
      { intros H. apply Hiff in H as [? H]. discriminate. }
      split; split.
      + reflexivity.
      + intros _. split; intros H; apply Hnone; auto.
      + intros H. contradiction.
      + intros [h' H]. discriminate. }
  destruct Hfail as [Hraise Hret].
  split; [exact Hraise|]. split; [exact Hret|]. split.
  - intros s Hs. do 2 eexists.
    split; [rewrite (invert_live _ _ _ Hk); unfold inverted; rewrite Hs;
            reflexivity|].
    split; [eapply lookup_put_same, Hk|].
    split; reflexivity.
  - intros c Hlen Hc. do 2 eexists.
    split.
    { rewrite (invert_live _ _ _ Hk). unfold inverted.
      destruct (state k) as [|s0 [|s1 st]]; [|simpl in Hlen; congruence|];
        rewrite Hc; reflexivity. }
    split; [eapply lookup_put_same, Hk|].
    split; reflexivity.
Qed.

(** [C8] at an untouched prototype: [~nspecies] fails. *)
Lemma C8_invert_fails_iff_no_single_entry_witness :
  __invert__ 0 [prototype "nspecies"] = Raise AssertionError [prototype "nspecies"].
Proof.
  destruct (C8_invert_fails_iff_no_single_entry
              [prototype "nspecies"] 0 (prototype "nspecies") eq_refl)
    as [[Hfail _] _].
  apply Hfail. split; discriminate.
Defined.

(** ** Negating twice *)

Lemma append_empty_l (s : string) : "" +:+ s = s.
Proof. reflexivity. Qed.

Lemma strip_after_mark (u : string) :
  unmarked u ->
  PyStr.replace PyStr.bang "" (PyStr.replace PyStr.lparen "(!" u) = u.
Proof.
  unfold unmarked. induction u as [|a u IH]; simpl; [reflexivity|].
  destruct (Ascii.eqb a PyStr.bang) eqn:Hbang; [discriminate|].
  intros Hu. destruct (Ascii.eqb a PyStr.lparen) eqn:Hpar; simpl.
  - apply Ascii.eqb_eq in Hpar. subst a.
    rewrite !append_empty_l. now rewrite IH.
  - rewrite Hbang. now rewrite IH.
Qed.

Lemma mark_shows (u : string) :
  unmarked u ->
  PyStr.contains PyStr.lparen u = true ->
  PyStr.contains PyStr.bang (PyStr.replace PyStr.lparen "(!" u) = true.
Proof.
  unfold unmarked. induction u as [|a u IH]; simpl; [discriminate|].
  destruct (Ascii.eqb a PyStr.bang) eqn:Hbang; [discriminate|].
  intros Hu. destruct (Ascii.eqb a PyStr.lparen) eqn:Hpar; simpl.
  - intros _. apply Ascii.eqb_eq in Hpar. subst a. reflexivity.
  - rewrite Hbang. now apply IH.
Qed.

Lemma mark_nothing (u : string) :
  PyStr.contains PyStr.lparen u = false ->
  PyStr.replace PyStr.lparen "(!" u = u.
Proof.
  induction u as [|a u IH]; simpl; [reflexivity|].
  destruct (Ascii.eqb a PyStr.lparen); [discriminate|].
  intros Hu. now rewrite IH.
Qed.

Lemma toggled_twice (t : string) :
  unmarked t \/ marked_throughout t ->
  toggled (toggled t) = t /\
  (PyStr.contains PyStr.lparen t = true ->
   PyStr.contains PyStr.bang (toggled t) = negb (PyStr.contains PyStr.bang t)).
Proof.
  intros Ht. unfold toggled at 2 3.
  destruct (PyStr.contains PyStr.bang t) eqn:Hbang.
  - destruct Ht as [Hun | (u & Hu & ->)]; [unfold unmarked in Hun; congruence|].
    rewrite (strip_after_mark u Hu). unfold toggled. rewrite Hu.
    split; [reflexivity|]. intros _. reflexivity.
  - destruct (PyStr.contains PyStr.lparen t) eqn:Hpar.
    + pose proof (mark_shows t Hbang Hpar) as Hshown.
      unfold toggled. rewrite Hshown.
      split; [now apply strip_after_mark|]. intros _. reflexivity.
    + rewrite (mark_nothing t Hpar). unfold toggled. rewrite Hbang.
      split; [now apply mark_nothing|]. discriminate.
Qed.

Lemma inverted_str (k : t) (txt : string) :
  length (state k) = 1 \/ length (cache k) = 1 ->
  str_of k = Some txt ->
  exists k1,
    inverted k = Some k1 /\
    str_of k1 = Some (toggled txt) /\
    (length (state k1) = 1 \/ length (cache k1) = 1).
Proof.
  unfold inverted, str_of.
  destruct (state k) as [|s0 [|s1 st]] eqn:Hs;
    destruct (cache k) as [|c0 [|c1 ca]] eqn:Hc; simpl;
    intros Hone Hstr;
    try (destruct Hone; discriminate);
    inversion Hstr; subst; eexists; (split; [reflexivity|]);
    unfold str_of; simpl; rewrite ?Hs, ?Hc; simpl; auto.
Qed.

(** C5, counterexample. [(~(Egap == 1)) & (nspecies == 2)] is a
    node with one resolved entry in which one comparison carries the marker
    and the other does not. The first negation removes every marker, the
    second marks every comparison: the string after two negations differs
    from the string before. *)
Lemma C5_mixed_markers_not_restored :
  exists x h h1 h2 before after,
    negated_left_scenario [] = Return x h /\
    __str__ x h = Return (Some before) h /\
    __invert__ x h = Return x h1 /\
    __invert__ x h1 = Return x h2 /\
    __str__ x h2 = Return (Some after) h2 /\
    before = "Egap(!1),nspecies(2)" /\
    after = "Egap(!1),nspecies(!2)" /\
    after ≠ before.
Proof.
  do 6 eexists.
  split; [reflexivity|]. split; [reflexivity|].
  split; [reflexivity|]. split; [reflexivity|].
  split; [reflexivity|]. split; [reflexivity|].
  split; [reflexivity|]. discriminate.
Qed.

(** C5, amended. On a node with exactly one entry in [state] or in [cache]
    whose string carries no marker, or carries it after every opening
    parenthesis and nowhere else (the negation of a string with no marker),
    two negations in succession both return the node and restore its string
    exactly; and if the string has an opening parenthesis, the marker is
    present after the first negation exactly when it was absent before. *)
Theorem C5_double_negation_restores
    (h : heap) (x : ref) (k : t) (txt : string) :
  h !! x = Some k ->
  length (state k) = 1 \/ length (cache k) = 1 ->
  __str__ x h = Return (Some txt) h ->
  unmarked txt \/ marked_throughout txt ->
  exists h1 h2 txt1,
    __invert__ x h = Return x h1 /\
    __str__ x h1 = Return (Some txt1) h1 /\
    __invert__ x h1 = Return x h2 /\
    __str__ x h2 = Return (Some txt) h2 /\
    (PyStr.contains PyStr.lparen txt = true ->
     PyStr.contains PyStr.bang txt1 = negb (PyStr.contains PyStr.bang txt)).
Proof.
  intros Hk Hone Hstr Hmark.
  rewrite (str_live _ _ _ Hk) in Hstr.
  assert (Hstr' : str_of k = Some txt) by congruence.
  destruct (inverted_str k txt Hone Hstr') as (k1 & Hi1 & Hs1 & Hone1).
  destruct (inverted_str k1 (toggled txt) Hone1 Hs1) as (k2 & Hi2 & Hs2 & _).
  destruct (toggled_twice txt Hmark) as [Htwice Htoggle].
  assert (Hk1 : <[x := k1]> h !! x = Some k1) by (eapply lookup_put_same, Hk).
  assert (Hk2 : <[x := k2]> (<[x := k1]> h) !! x = Some k2)
    by (eapply lookup_put_same, Hk1).
  exists (<[x := k1]> h), (<[x := k2]> (<[x := k1]> h)), (toggled txt).
  split; [rewrite (invert_live _ _ _ Hk); now rewrite Hi1|].
  split; [rewrite (str_live _ _ _ Hk1); now rewrite Hs1|].
  split; [rewrite (invert_live _ _ _ Hk1); now rewrite Hi2|].
  split; [rewrite (str_live _ _ _ Hk2); rewrite Hs2; now rewrite Htwice|].
  exact Htoggle.
Qed.

(** [C5] at the pending comparison [Egap_type == 'insulator']. *)
Lemma C5_double_negation_restores_witness :
  exists h1 h2,
    __invert__ 0 [mk (Some "Egap_type") [] ["Egap_type('insulator')"]
                     {[ Some "Egap_type" ]}] = Return 0 h1 /\
    __str__ 0 h1 = Return (Some "Egap_type(!'insulator')") h1 /\
    __invert__ 0 h1 = Return 0 h2 /\
    __str__ 0 h2 = Return (Some "Egap_type('insulator')") h2.
Proof.
  destruct (C5_double_negation_restores
              [mk (Some "Egap_type") [] ["Egap_type('insulator')"]
                  {[ Some "Egap_type" ]}]
              0 _ "Egap_type('insulator')" eq_refl
              (or_intror eq_refl) eq_refl (or_introl eq_refl))
    as (h1 & h2 & txt1 & Hi1 & Hs1 & Hi2 & Hs2 & _).
  exists h1, h2.
  split; [exact Hi1|].
  split; [|split; [exact Hi2 | exact Hs2]].
  assert (Hrun : __invert__ 0 [mk (Some "Egap_type") [] ["Egap_type('insulator')"]
                                   {[ Some "Egap_type" ]}]
                 = Return 0 [mk (Some "Egap_type") [] ["Egap_type(!'insulator')"]
                                {[ Some "Egap_type" ]}])
    by reflexivity.
  rewrite Hrun in Hi1. injection Hi1 as <-. reflexivity.
Defined.

(** ** Discovery and reset of the registered nodes *)

Lemma find_all_loop (l : list (string * Registry.pyobj))
    (h : heap) (mems : list (string * Registry.pyobj)) (acc : list string) :
  for_each l (fun no =>
      if Registry.isinstance_Keyword (snd no)
      then Registry.all_keywords_append (fst no)
      else ret tt) (Registry.mk h mems acc)
  = Return tt (Registry.mk h mems (acc ++ discovered l)).
Proof.
  revert acc. induction l as [|[n o] l IH]; intros acc; simpl.
  - now rewrite app_nil_r.
  - unfold bind. destruct (Registry.isinstance_Keyword o); simpl.
    + rewrite IH. now rewrite <- app_assoc.
    + apply IH.
Qed.

Lemma find_all_run (w : Registry.world) :
  Registry._find_all w
  = Return tt (Registry.mk (Registry.objects w) (Registry.members w)
                 (match Registry._all_keywords w with
                  | [] => discovered (Registry.members w)
                  | _ :: _ => Registry._all_keywords w
                  end)).
Proof.
  destruct w as [h mems ak]. unfold Registry._find_all, bind, Registry.read. simpl.
  destruct ak as [|n ak]; simpl.
  - apply (find_all_loop mems h mems []).
  - reflexivity.
Qed.

Lemma assoc_of_member (l : list (string * Registry.pyobj)) (n : string) (o : Registry.pyobj) :
  NoDup l.*1 -> (n, o) ∈ l -> Registry.assoc n l = Some o.
Proof.
  induction l as [|[n' o'] l IH]; simpl; intros Hnd Hin.
  - inversion Hin.
  - apply NoDup_cons in Hnd as [Hfresh Hnd].
    apply elem_of_cons in Hin as [Heq | Hin].
    + inversion Heq; subst. now rewrite String.eqb_refl.
    + destruct (String.eqb n' n) eqn:Hn.
      * apply String.eqb_eq in Hn. subst n'. exfalso. apply Hfresh.
        apply list_elem_of_fmap. now exists (n, o).
      * now apply IH.
Qed.

Lemma discovered_bound (l : list (string * Registry.pyobj)) (n : string) :
  n ∈ discovered l -> exists r, (n, Registry.Instance r) ∈ l.
Proof.
  induction l as [|[n' o'] l IH]; simpl; intros Hin.
  - inversion Hin.
  - destruct o' as [r'|b]; simpl in Hin.
    + apply elem_of_cons in Hin as [-> | Hin].
      * exists r'. apply elem_of_cons. now left.
      * destruct (IH Hin) as [r Hr]. exists r. apply elem_of_cons. now right.
    + destruct (IH Hin) as [r Hr]. exists r. apply elem_of_cons. now right.
Qed.

Lemma cleared_idem (k : t) : cleared (cleared k) = cleared k.
Proof. reflexivity. Qed.

Section ResetLoop.

Variables (mems : list (string * Registry.pyobj)) (ak : list string).

(** One turn of the loop of [reset] on a name bound to a live instance. *)
Lemma reset_body_run (h : heap) (n : string) (r : ref) (k : t) :
  Registry.assoc n mems = Some (Registry.Instance r) ->
  h !! r = Some k ->
  (cls <- Registry.getattr n ;;
   Registry.setattr_state cls [] ;;
   Registry.setattr_cache cls []) (Registry.mk h mems ak)
  = Return tt (Registry.mk (<[r := cleared k]> h) mems ak).
Proof using Type.
  intros Hn Hk.
  unfold bind, Registry.getattr, Registry.read, bind. simpl. rewrite Hn. simpl.
  unfold Registry.on_heap. simpl.
  rewrite (assign_state_live _ _ _ Hk). simpl.
  erewrite assign_cache_live by (eapply lookup_put_same, Hk).
  now rewrite insert_twice.
Qed.

Lemma reset_loop (l : list string) :
  forall h : heap,
    (forall n, n ∈ l ->
               exists r, Registry.assoc n mems = Some (Registry.Instance r) /\
                         is_Some (h !! r)) ->
    exists h',
      for_each l (fun n =>
          cls <- Registry.getattr n ;;
          Registry.setattr_state cls [] ;;
          Registry.setattr_cache cls []) (Registry.mk h mems ak)
      = Return tt (Registry.mk h' mems ak) /\
      length h' = length h /\
      (forall (r : ref) k, h !! r = Some k ->
                   h' !! r = Some k \/ h' !! r = Some (cleared k)) /\
      (forall (r : ref) k, h !! r = Some k ->
                   (exists n, n ∈ l /\
                              Registry.assoc n mems = Some (Registry.Instance r)) ->
                   h' !! r = Some (cleared k)) /\
      (forall r : ref,
          (forall n, n ∈ l -> Registry.assoc n mems ≠ Some (Registry.Instance r)) ->
          h' !! r = h !! r).
Proof using Type.
  induction l as [|n l IH]; intros h Hbound.
  - exists h. split; [reflexivity|]. split; [reflexivity|].
    split; [auto|]. split; [|auto].
    intros r k _ (n & Hin & _). inversion Hin.
  - destruct (Hbound n) as (r0 & Hn & [k0 Hk0]); [apply elem_of_cons; now left|].
    assert (Hlive : forall r : ref,
               is_Some (h !! r) -> is_Some (<[r0 := cleared k0]> h !! r)).
    { intros r [k Hk]. destruct (decide (r = r0)) as [->|Hne].
      - rewrite (lookup_put_same _ _ _ Hk0). eauto.
      - rewrite (lookup_put_other h r0 (cleared k0) r Hne). eauto. }
    destruct (IH (<[r0 := cleared k0]> h)) as (h' & Hrun & Hlen & Hany & Hreg & Hout).
    { intros n' Hin. destruct (Hbound n') as (r & Hr & Hsome).
      - apply elem_of_cons. now right.
      - exists r. split; [exact Hr | now apply Hlive]. }
    exists h'. split.
    { simpl. unfold bind at 1. rewrite (reset_body_run h n r0 k0 Hn Hk0).
      exact Hrun. }
    split; [rewrite Hlen; apply length_insert|].
    assert (Hstep : forall (r : ref) k, h !! r = Some k ->
                      <[r0 := cleared k0]> h !! r = Some k \/
                      <[r0 := cleared k0]> h !! r = Some (cleared k)).
    { intros r k Hk. destruct (decide (r = r0)) as [->|Hne].
      - right. rewrite (lookup_put_same _ _ _ Hk0). congruence.
      - left. now rewrite (lookup_put_other h r0 (cleared k0) r Hne). }
    split; [|split].
    + intros r k Hk. destruct (Hstep r k Hk) as [H1 | H1].
      * apply (Hany r k H1).
      * right. destruct (Hany r (cleared k) H1) as [H2 | H2]; exact H2.
    + intros r k Hk (n' & Hin & Hn').
      apply elem_of_cons in Hin as [-> | Hin].
      * assert (r = r0) by congruence. subst r.
        assert (k = k0) by congruence. subst k.
        pose proof (lookup_put_same _ _ _ Hk0 (cleared k0)) as H1.
        destruct (Hany r0 (cleared k0) H1) as [H2 | H2]; exact H2.
      * destruct (Hstep r k Hk) as [H1 | H1].
        -- apply (Hreg r k H1). eauto.
        -- rewrite <- (cleared_idem k). apply (Hreg r (cleared k) H1). eauto.
    + intros r Hnot. rewrite Hout.
      * apply lookup_put_other. intros ->. apply (Hnot n); [|exact Hn].
        apply elem_of_cons. now left.
      * intros n' Hin. apply Hnot. apply elem_of_cons. now right.
Qed.

End ResetLoop.

Lemma discovered_complete (l : list (string * Registry.pyobj)) (n : string) (r : ref) :
  (n, Registry.Instance r) ∈ l -> n ∈ discovered l.
Proof.
  induction l as [|[n' o'] l IH]; intros Hin; [inversion Hin|].
  apply elem_of_cons in Hin as [Heq | Hin]; simpl.
  - inversion Heq; subst. simpl. apply elem_of_cons. now left.
  - destruct (Registry.isinstance_Keyword o'); [apply elem_of_cons; right|]; auto.
Qed.



(** * Further properties of the operators *)

(** ** Comparisons *)

(** X1. [node % v] with a text [v] returns the same node and appends the
    wildcard entry to the end of its cache, whatever the cache held, and
    touches nothing else; with any other value it raises [AssertionError]
    before anything is written: the heap is the heap of the call. *)
Theorem X1_mod_appends_or_asserts (h : heap) (x : ref) (k : t) (v : value) :
  h !! x = Some k ->
  match v with
  | VStr s =>
      __mod__ x v h
      = Return x (<[x := set_cache k
                            (cache k ++ [format_str (name k) +:+ "(*'" +:+ s +:+ "'*)"])]> h)
  | VInt _ | VObj _ => __mod__ x v h = Raise AssertionError h
  end.
Proof.
  intros Hk. destruct v as [s|z|o]; try reflexivity.
  unfold __mod__, bind, py_assert. simpl.
  rewrite (get_live _ _ _ Hk). now rewrite (cache_append_live _ _ _ Hk).
Qed.

(** [X1] at the prototype [species] with the number 3. *)
Lemma X1_mod_appends_or_asserts_witness :
  __mod__ 0 (VInt 3) [prototype "species"]
  = Raise AssertionError [prototype "species"].
Proof.
  exact (X1_mod_appends_or_asserts [prototype "species"] 0 (prototype "species")
           (VInt 3) eq_refl).
Defined.

(** X2. [node < v] then [node > v'] return the same node; the cache is the
    old cache followed by the upper-bound entry and then the lower-bound
    entry, in call order; state, name and classes are as before, no other
    node changes and no object is created. *)
Theorem X2_bounds_extend_cache_in_order
    (h : heap) (x : ref) (k : t) (v v' : value) :
  h !! x = Some k ->
  exists h1 h2 k2,
    __lt__ x v h = Return x h1 /\
    __gt__ x v' h1 = Return x h2 /\
    h2 !! x = Some k2 /\
    cache k2 =
      cache k ++
        [ match v with
          | VStr s => format_str (name k) +:+ "(*'" +:+ s +:+ "')"
          | VInt z => format_str (name k) +:+ "(*" +:+ pretty z +:+ ")"
          | VObj o => format_str (name k) +:+ "(*" +:+ o +:+ ")"
          end;
          match v' with
          | VStr s => format_str (name k) +:+ "('" +:+ s +:+ "'*)"
          | VInt z => format_str (name k) +:+ "(" +:+ pretty z +:+ "*)"
          | VObj o => format_str (name k) +:+ "(" +:+ o +:+ "*)"
          end ] /\
    state k2 = state k /\
    name k2 = name k /\
    classes k2 = classes k /\
    (forall y : ref, y ≠ x -> h2 !! y = h !! y) /\
    length h2 = length h.
Proof.
  intros Hk.
  set (k1 := set_cache k (cache k ++ [lt_entry (name k) v])).
  set (k2 := set_cache k1 (cache k1 ++ [gt_entry (name k1) v'])).
  assert (H1 : <[x := k1]> h !! x = Some k1) by (eapply lookup_put_same, Hk).
  exists (<[x := k1]> h), (<[x := k2]> (<[x := k1]> h)), k2.
  split; [now apply lt_live|].
  split; [now apply gt_live|].
  split; [eapply lookup_put_same, H1|].
  split.
  { unfold k2, k1, lt_entry, gt_entry. simpl. rewrite <- app_assoc. simpl.
    now destruct v, v'. }
  repeat (split; [reflexivity|]).
  split.
  - intros y Hy. rewrite lookup_put_other by exact Hy. now apply lookup_put_other.
  - transitivity (length (<[x := k1]> h)); apply length_insert.
Qed.

(** [X2] on a node that already holds one pending comparison. *)
Lemma X2_bounds_extend_cache_in_order_witness :
  exists h2 k2,
    (__lt__ 0 (VInt 5) ;; __gt__ 0 (VStr "a"))
      [mk (Some "species") [] ["species('Si')"] {[ Some "species" ]}]
      = Return 0 h2 /\
    h2 !! 0 = Some k2 /\
    cache k2 = ["species('Si')"; "species(*5)"; "species('a'*)"].
Proof.
  destruct (X2_bounds_extend_cache_in_order
              [mk (Some "species") [] ["species('Si')"] {[ Some "species" ]}] 0
              _ (VInt 5) (VStr "a") eq_refl)
    as (h1 & h2 & k2 & Hlt & Hgt & Hk2 & Hcache & _).
  exists h2, k2. split; [|split; [exact Hk2 | exact Hcache]].
  unfold bind. rewrite Hlt. exact Hgt.
Defined.

(** X3. On a node that holds exactly one state entry, a comparison returns
    the node but does not change what [__str__] returns: the state entry
    keeps priority over the pending comparison. *)
Theorem X3_settled_node_hides_comparisons
    (h : heap) (x : ref) (k : t) (s : string) (v : value) :
  h !! x = Some k ->
  state k = [s] ->
  __str__ x h = Return (Some s) h /\
  (exists h', __lt__ x v h = Return x h' /\ __str__ x h' = Return (Some s) h') /\
  (exists h', __gt__ x v h = Return x h' /\ __str__ x h' = Return (Some s) h') /\
  (exists h', __eq__ x v h = Return x h' /\ __str__ x h' = Return (Some s) h').
Proof.
  intros Hk Hs.
  assert (Hstr : forall c, str_of (set_cache k c) = Some s).
  { intros c. unfold str_of. simpl. now rewrite Hs. }
  split.
  { rewrite (str_live _ _ _ Hk). unfold str_of. now rewrite Hs. }
  split; [|split].
  - eexists. split; [apply (lt_live _ _ _ v Hk)|].
    erewrite str_live by (eapply lookup_put_same, Hk). now rewrite Hstr.
  - eexists. split; [apply (gt_live _ _ _ v Hk)|].
    erewrite str_live by (eapply lookup_put_same, Hk). now rewrite Hstr.
  - eexists. split; [apply (eq_live _ _ _ v Hk)|].
    erewrite str_live by (eapply lookup_put_same, Hk). now rewrite Hstr.
Qed.

(** [X3] after [(nspecies > 2) & (nspecies < 5)]: a further [nspecies == 3]
    is not seen in the string. *)
Lemma X3_settled_node_hides_comparisons_witness :
  exists h',
    __eq__ 0 (VInt 3)
      [mk (Some "nspecies") ["nspecies(2*),nspecies(*5)"] [] {[ Some "nspecies" ]}]
      = Return 0 h' /\
    __str__ 0 h' = Return (Some "nspecies(2*),nspecies(*5)") h'.
Proof.
  destruct (X3_settled_node_hides_comparisons
              [mk (Some "nspecies") ["nspecies(2*),nspecies(*5)"] []
                  {[ Some "nspecies" ]}] 0 _ "nspecies(2*),nspecies(*5)" (VInt 3)
              eq_refl eq_refl)
    as (_ & _ & _ & h' & Heq & Hstr).
  exists h'. split; [exact Heq | exact Hstr].
Defined.




(** ** Self-combination, branch by branch *)

(** X5. With one pending comparison [c] and one state entry [s], combining
    the node with itself puts the pending comparison first and the old state
    after it in parentheses: the state becomes [c + token + "(" + s + ")"],
    the cache is emptied and that string is what [__str__] returns. *)
Theorem X5_pending_joins_settled_state
    (h : heap) (x : ref) (k : t) (c s token : string) :
  h !! x = Some k ->
  cache k = [c] ->
  state k = [s] ->
  exists h' k',
    _generic_combine x x token h = Return x h' /\
    h' !! x = Some k' /\
    state k' = [c +:+ token +:+ "(" +:+ s +:+ ")"] /\
    cache k' = [] /\
    __str__ x h' = Return (Some (c +:+ token +:+ "(" +:+ s +:+ ")")) h'.
Proof.
  intros Hk Hc Hs.
  assert (Hsc : self_combined k token
                = Some (mk (name k) [c +:+ token +:+ "(" +:+ s +:+ ")"] [] (classes k))).
  { unfold self_combined. now rewrite Hc, Hs. }
  do 2 eexists.
  split; [rewrite (self_combine_live _ _ _ _ Hk), Hsc; reflexivity|].
  split; [eapply lookup_put_same, Hk|].
  split; [reflexivity|]. split; [reflexivity|].
  erewrite str_live by (eapply lookup_put_same, Hk). reflexivity.
Qed.

(** [X5] for [((x > 2) & (x < 5)) | (x == 9)] at its last step. *)
Lemma X5_pending_joins_settled_state_witness :
  exists h',
    __or__ 0 0
      [mk (Some "nspecies") ["nspecies(2*),nspecies(*5)"] ["nspecies(9)"]
          {[ Some "nspecies" ]}]
    = Return 0 h' /\
    __str__ 0 h' = Return (Some "nspecies(9):(nspecies(2*),nspecies(*5))") h'.
Proof.
  destruct (X5_pending_joins_settled_state
              [mk (Some "nspecies") ["nspecies(2*),nspecies(*5)"] ["nspecies(9)"]
                  {[ Some "nspecies" ]}]
              0 _ "nspecies(9)" "nspecies(2*),nspecies(*5)" ":"
              eq_refl eq_refl eq_refl)
    as (h' & k' & Hrun & _ & _ & _ & Hstr).
  exists h'. split; [exact Hrun | exact Hstr].
Defined.

(** X6. With two state entries and a cache that does not hold exactly two
    comparisons, combining the node with itself joins the two state entries,
    each in parentheses, into the single state entry; the cache is emptied,
    so whatever was pending in it is dropped from the expression. *)
Theorem X6_two_state_entries_join_cache_dropped
    (h : heap) (x : ref) (k : t) (s0 s1 token : string) :
  h !! x = Some k ->
  state k = [s0; s1] ->
  length (cache k) ≠ 2 ->
  exists h' k',
    _generic_combine x x token h = Return x h' /\
    h' !! x = Some k' /\
    state k' = ["(" +:+ s0 +:+ ")" +:+ token +:+ "(" +:+ s1 +:+ ")"] /\
    cache k' = [] /\
    __str__ x h'
    = Return (Some ("(" +:+ s0 +:+ ")" +:+ token +:+ "(" +:+ s1 +:+ ")")) h'.
Proof.
  intros Hk Hs Hc.
  assert (Hsc : self_combined k token
                = Some (mk (name k)
                          ["(" +:+ s0 +:+ ")" +:+ token +:+ "(" +:+ s1 +:+ ")"] []
                          (classes k))).
  { unfold self_combined. rewrite Hs.
    destruct (cache k) as [|c0 [|c1 [|c2 ca]]]; simpl in Hc; try reflexivity.
    congruence. }
  do 2 eexists.
  split; [rewrite (self_combine_live _ _ _ _ Hk), Hsc; reflexivity|].
  split; [eapply lookup_put_same, Hk|].
  split; [reflexivity|]. split; [reflexivity|].
  erewrite str_live by (eapply lookup_put_same, Hk). reflexivity.
Qed.

(** [X6] on a node with two state entries and one pending comparison: the
    comparison [x(9)] is not in the result. *)
Lemma X6_two_state_entries_join_cache_dropped_witness :
  exists h',
    __and__ 0 0 [mk (Some "x") ["x(1)"; "x(2)"] ["x(9)"] {[ Some "x" ]}]
    = Return 0 h' /\
    h' = [mk (Some "x") ["(x(1)),(x(2))"] [] {[ Some "x" ]}].
Proof.
  destruct (X6_two_state_entries_join_cache_dropped
              [mk (Some "x") ["x(1)"; "x(2)"] ["x(9)"] {[ Some "x" ]}]
              0 (mk (Some "x") ["x(1)"; "x(2)"] ["x(9)"] {[ Some "x" ]})
              "x(1)" "x(2)" ",")
    as (h' & k' & Hrun & _); [reflexivity | reflexivity | discriminate |].
  exists h'. split; [exact Hrun|].
  assert (Hval : __and__ 0 0 [mk (Some "x") ["x(1)"; "x(2)"] ["x(9)"] {[ Some "x" ]}]
                 = Return 0 [mk (Some "x") ["(x(1)),(x(2))"] [] {[ Some "x" ]}])
    by reflexivity.
  unfold __and__ in Hval. rewrite Hval in Hrun. now injection Hrun as <-.
Defined.

Lemma str_app_assoc (a b c : string) : (a +:+ b) +:+ c = a +:+ (b +:+ c).
Proof.
  induction a as [|ch a IH]; [reflexivity|].
  change (String ch ((a +:+ b) +:+ c) = String ch (a +:+ (b +:+ c))).
  now rewrite IH.
Qed.

Lemma pair_bounds_live (h : heap) (x : ref) (k : t) (a b : Z) :
  h !! x = Some k ->
  cache k = [] ->
  pair_bounds x a b h
  = Return x (<[x := mk (name k)
                        (state k ++ [gt_entry (name k) (VInt a) +:+ "," +:+
                                     lt_entry (name k) (VInt b)])
                        [] (classes k)]> h).
Proof.
  intros Hk Hc.
  set (k1 := set_cache k (cache k ++ [gt_entry (name k) (VInt a)])).
  set (k2 := set_cache k1 (cache k1 ++ [lt_entry (name k1) (VInt b)])).
  assert (H1 : <[x := k1]> h !! x = Some k1) by (eapply lookup_put_same, Hk).
  assert (H2 : <[x := k2]> (<[x := k1]> h) !! x = Some k2)
    by (eapply lookup_put_same, H1).
  unfold pair_bounds, bind.
  rewrite (gt_live _ _ _ (VInt a) Hk). fold k1.
  rewrite (lt_live _ _ _ (VInt b) H1). fold k2.
  unfold __and__. rewrite (self_combine_live _ _ _ _ H2).
  unfold self_combined, k2, k1. simpl. rewrite Hc. simpl.
  now rewrite !insert_twice.
Qed.

(** X7. From a node with empty buffers,
    [((x > a) & (x < b)) | ((x > c) & (x < d))] on that one instance returns
    it with the single state entry made of the two conjunctions, each in
    parentheses, joined by a colon, and with an empty cache; the second
    conjunction is appended to the state beside the first before the
    disjunction joins them. *)
Theorem X7_two_ranges_on_one_instance
    (h : heap) (x : ref) (k : t) (a b c d : Z) :
  h !! x = Some k ->
  state k = [] ->
  cache k = [] ->
  exists h' k',
    two_ranges x a b c d h = Return x h' /\
    h' !! x = Some k' /\
    state k' =
      ["(" +:+ format_str (name k) +:+ "(" +:+ pretty a +:+ "*)," +:+
       format_str (name k) +:+ "(*" +:+ pretty b +:+ ")):(" +:+
       format_str (name k) +:+ "(" +:+ pretty c +:+ "*)," +:+
       format_str (name k) +:+ "(*" +:+ pretty d +:+ "))"] /\
    cache k' = [] /\
    __str__ x h' = Return (head (state k')) h'.
Proof.
  intros Hk Hs Hc. destruct k as [nm st ca cl]. simpl in *. subst st ca.
  set (k0 := mk nm [] [] cl) in *.
  set (k1 := mk nm [gt_entry nm (VInt a) +:+ "," +:+ lt_entry nm (VInt b)] [] cl).
  set (k2 := mk nm [gt_entry nm (VInt a) +:+ "," +:+ lt_entry nm (VInt b);
                    gt_entry nm (VInt c) +:+ "," +:+ lt_entry nm (VInt d)] [] cl).
  set (k3 := mk nm ["(" +:+ (gt_entry nm (VInt a) +:+ "," +:+ lt_entry nm (VInt b))
                    +:+ ")" +:+ ":" +:+ "(" +:+
                    (gt_entry nm (VInt c) +:+ "," +:+ lt_entry nm (VInt d))
                    +:+ ")"] [] cl).
  assert (H1 : <[x := k1]> h !! x = Some k1) by (eapply lookup_put_same, Hk).
  assert (H2 : <[x := k2]> (<[x := k1]> h) !! x = Some k2)
    by (eapply lookup_put_same, H1).
  assert (H3 : <[x := k3]> (<[x := k2]> (<[x := k1]> h)) !! x = Some k3)
    by (eapply lookup_put_same, H2).
  exists (<[x := k3]> (<[x := k2]> (<[x := k1]> h))), k3. split.
  { unfold two_ranges, bind. rewrite (pair_bounds_live _ _ _ a b Hk eq_refl).
    change (mk (name k0) (state k0 ++ [gt_entry (name k0) (VInt a) +:+ "," +:+
                                       lt_entry (name k0) (VInt b)]) []
               (classes k0)) with k1.
    rewrite (pair_bounds_live _ _ _ c d H1 eq_refl).
    change (mk (name k1) (state k1 ++ [gt_entry (name k1) (VInt c) +:+ "," +:+
                                       lt_entry (name k1) (VInt d)]) []
               (classes k1)) with k2.
    unfold __or__. rewrite (self_combine_live _ _ _ _ H2). reflexivity. }
  split; [exact H3|].
  split.
  { unfold k3, gt_entry, lt_entry. simpl.
    f_equal. rewrite !str_app_assoc. reflexivity. }
  split; [reflexivity|].
  now rewrite (str_live _ _ _ H3).
Qed.

(** [X7] for [nspecies] with the ranges 1..2 and 7..9. *)
Lemma X7_two_ranges_on_one_instance_witness :
  exists h',
    two_ranges 0 1 2 7 9 [prototype "nspecies"] = Return 0 h' /\
    __str__ 0 h'
    = Return (Some "(nspecies(1*),nspecies(*2)):(nspecies(7*),nspecies(*9))") h'.
Proof.
  destruct (X7_two_ranges_on_one_instance
              [prototype "nspecies"] 0 (prototype "nspecies") 1 2 7 9
              eq_refl eq_refl eq_refl)
    as (h' & k' & Hrun & _ & Hst & _ & Hstr).
  exists h'. split; [exact Hrun|].
  rewrite Hstr, Hst. reflexivity.
Defined.

(** ** Cross-node combination *)

Lemma resolved_Some_iff (k : t) :
  is_Some (resolved k) <->
  (length (state k) = 1 /\ length (cache k) = 0) \/
  (length (state k) = 0 /\ length (cache k) = 1).
Proof.
  unfold resolved.
  destruct (state k) as [|s0 [|s1 st]]; destruct (cache k) as [|c0 [|c1 ca]];
    simpl; split; intros H;
    solve [ eauto
          | destruct H as [? H]; discriminate
          | destruct H as [[H1 H2]|[H1 H2]]; discriminate ].
Qed.

(** X8. Combining two different live nodes has two outcomes only. If each
    operand has either one state entry and no cache entry, or no state entry
    and one cache entry, it returns a reference that was not in the heap, the
    heap grows by that one object and every object that was there is
    unchanged. Otherwise it raises [TypeError] and the heap is the heap of
    the call. *)
Theorem X8_cross_combination_outcomes
    (h : heap) (a b : ref) (ka kb : t) (token : string) :
  b ≠ a ->
  h !! a = Some ka ->
  h !! b = Some kb ->
  let ready (k : t) :=
    (length (state k) = 1 /\ length (cache k) = 0) \/
    (length (state k) = 0 /\ length (cache k) = 1) in
  (ready ka /\ ready kb ->
   exists kn,
     _generic_combine a b token h = Return (length h) (h ++ [kn]) /\
     h !! length h = None /\
     (forall (y : ref) k, h !! y = Some k -> (h ++ [kn]) !! y = Some k)) /\
  (~ (ready ka /\ ready kb) ->
   _generic_combine a b token h = Raise TypeError h).
Proof.
  intros Hne Ha Hb ready.
  rewrite (cross_combine_live _ _ _ _ _ _ Hne Ha Hb).
  pose proof (resolved_Some_iff ka) as Hia.
  pose proof (resolved_Some_iff kb) as Hib.
  split.
  - intros [Hra Hrb]. apply Hia in Hra as [s Hs]. apply Hib in Hrb as [o Ho].
    rewrite Hs, Ho. eexists. split; [reflexivity|].
    split; [apply lookup_ge_None_2; lia|].
    intros y k Hy. now apply lookup_app_l_Some.
  - intros Hnot. destruct (resolved ka) as [s|] eqn:Hs; [|reflexivity].
    destruct (resolved kb) as [o|] eqn:Ho; [|reflexivity].
    exfalso. apply Hnot. split; [apply Hia | apply Hib]; eauto.
Qed.

(** [X8] with a right operand that holds two pending comparisons. *)
Lemma X8_cross_combination_outcomes_witness :
  __and__ 0 1 [mk (Some "Egap") [] ["Egap(1)"] {[ Some "Egap" ]};
               mk (Some "auid") [] ["auid(2)"; "auid(3)"] {[ Some "auid" ]}]
  = Raise TypeError
      [mk (Some "Egap") [] ["Egap(1)"] {[ Some "Egap" ]};
       mk (Some "auid") [] ["auid(2)"; "auid(3)"] {[ Some "auid" ]}].
Proof.
  destruct (X8_cross_combination_outcomes
              [mk (Some "Egap") [] ["Egap(1)"] {[ Some "Egap" ]};
               mk (Some "auid") [] ["auid(2)"; "auid(3)"] {[ Some "auid" ]}]
              0 1
              (mk (Some "Egap") [] ["Egap(1)"] {[ Some "Egap" ]})
              (mk (Some "auid") [] ["auid(2)"; "auid(3)"] {[ Some "auid" ]})
              ",")
    as [_ Hfail]; [discriminate | reflexivity | reflexivity |].
  apply Hfail. simpl. intros [_ [[H _]|[_ H]]]; discriminate.
Defined.

Lemma contains_app (c : ascii) (x y : string) :
  PyStr.contains c (x +:+ y) = PyStr.contains c x || PyStr.contains c y.
Proof.
  induction x as [|a x IH]; [reflexivity|].
  change (PyStr.contains c (String a (x +:+ y))
          = PyStr.contains c (String a x) || PyStr.contains c y).
  simpl. now destruct (Ascii.eqb a c).
Qed.




(** ** Negation *)

Lemma inverted_frame (k k1 : t) :
  inverted k = Some k1 ->
  name k1 = name k /\
  classes k1 = classes k /\
  length (state k1) = length (state k) /\
  length (cache k1) = length (cache k) /\
  (length (state k) = 1 -> cache k1 = cache k) /\
  (length (state k) ≠ 1 -> state k1 = state k).
Proof.
  unfold inverted.
  destruct (state k) as [|s0 [|s1 st]] eqn:Hs;
    destruct (cache k) as [|c0 [|c1 ca]] eqn:Hc; simpl;
    intros H; inversion H; subst k1; simpl; rewrite ?Hs, ?Hc;
    repeat split; intros; try reflexivity; simpl in *; congruence.
Qed.

(** X10. Negation acts on the entry that [__str__] shows. On a node with
    exactly one state entry or exactly one cache entry, [~node] returns the
    node, and its string afterwards is the string before with every ['!']
    removed if it held one, and otherwise with ['!'] put after every ['('].
    The buffers keep their lengths, the buffer that is not shown is
    untouched (with one state entry the cache is left alone, pending
    comparisons included), and name and classes are unchanged. *)
Theorem X10_negation_rewrites_the_shown_entry
    (h : heap) (x : ref) (k : t) (s : string) :
  h !! x = Some k ->
  length (state k) = 1 \/ length (cache k) = 1 ->
  __str__ x h = Return (Some s) h ->
  exists h' k',
    __invert__ x h = Return x h' /\
    h' !! x = Some k' /\
    __str__ x h'
    = Return (Some (if PyStr.contains PyStr.bang s
                    then PyStr.replace PyStr.bang "" s
                    else PyStr.replace PyStr.lparen "(!" s)) h' /\
    length (state k') = length (state k) /\
    length (cache k') = length (cache k) /\
    (length (state k) = 1 -> cache k' = cache k) /\
    (length (state k) ≠ 1 -> state k' = state k) /\
    name k' = name k /\
    classes k' = classes k.
Proof.
  intros Hk Hone Hstr.
  rewrite (str_live _ _ _ Hk) in Hstr.
  assert (Hstr' : str_of k = Some s) by congruence.
  destruct (inverted_str k s Hone Hstr') as (k1 & Hi & Hs1 & _).
  destruct (inverted_frame k k1 Hi) as (Hn & Hcl & Hls & Hlc & Hc & Hst).
  assert (Hk1 : <[x := k1]> h !! x = Some k1) by (eapply lookup_put_same, Hk).
  exists (<[x := k1]> h), k1.
  split; [rewrite (invert_live _ _ _ Hk); now rewrite Hi|].
  split; [exact Hk1|].
  split; [rewrite (str_live _ _ _ Hk1); now rewrite Hs1|].
  repeat (split; [assumption|]).
  assumption.
Qed.

(** [X10] on a node with one state entry and one pending comparison: the
    state entry is negated, the pending comparison is left as it is. *)
Lemma X10_negation_rewrites_the_shown_entry_witness :
  exists h' k',
    __invert__ 0 [mk (Some "x") ["x(1),x(2)"] ["x(3)"] {[ Some "x" ]}]
    = Return 0 h' /\
    h' !! 0 = Some k' /\
    __str__ 0 h' = Return (Some "x(!1),x(!2)") h' /\
    cache k' = ["x(3)"].
Proof.
  destruct (X10_negation_rewrites_the_shown_entry
              [mk (Some "x") ["x(1),x(2)"] ["x(3)"] {[ Some "x" ]}] 0
              (mk (Some "x") ["x(1),x(2)"] ["x(3)"] {[ Some "x" ]})
              "x(1),x(2)" eq_refl (or_introl eq_refl) eq_refl)
    as (h' & k' & Hrun & Hk' & Hstr & _ & _ & Hc & _).
  exists h', k'. split; [exact Hrun|]. split; [exact Hk'|].
  split; [exact Hstr|]. apply Hc. reflexivity.
Defined.

Lemma strip_unmarked (s : string) :
  unmarked (PyStr.replace PyStr.bang "" s).
Proof.
  unfold unmarked. induction s as [|a s IH]; [reflexivity|]. simpl.
  destruct (Ascii.eqb a PyStr.bang) eqn:Ha.
  - now rewrite append_empty_l.
  - simpl. now rewrite Ha.
Qed.

Lemma toggled_thrice (s : string) :
  toggled (toggled (toggled s)) = toggled s.
Proof.
  destruct (PyStr.contains PyStr.bang s) eqn:Hbang.
  - assert (Hfirst : toggled s = PyStr.replace PyStr.bang "" s)
      by (unfold toggled; now rewrite Hbang).
    rewrite Hfirst. apply toggled_twice. left. apply strip_unmarked.
  - assert (Htwice : toggled (toggled s) = s)
      by (apply toggled_twice; now left).
    now rewrite Htwice.
Qed.

Lemma inverted_thrice (k k1 k2 k3 : t) :
  inverted k = Some k1 ->
  inverted k1 = Some k2 ->
  inverted k2 = Some k3 ->
  k3 = k1.
Proof.
  unfold inverted.
  destruct (state k) as [|s0 [|s1 st]] eqn:Hs;
    destruct (cache k) as [|c0 [|c1 ca]] eqn:Hc; simpl;
    intros H1; inversion H1; subst k1; simpl; rewrite ?Hs, ?Hc; simpl;
    intros H2; inversion H2; subst k2; simpl; rewrite ?Hs, ?Hc; simpl;
    intros H3; inversion H3; subst k3;
    unfold set_state, set_cache; simpl; now rewrite toggled_thrice.
Qed.

(** X11. Whatever the text of the entry, a third negation brings the node
    back to where the first one left it: after [~x] the node alternates
    between two strings, also when two negations do not restore the string
    it started with. The three negations leave the very heap the first one
    left. *)
Theorem X11_third_negation_repeats_the_first (h : heap) (x : ref) (k : t) :
  h !! x = Some k ->
  length (state k) = 1 \/ length (cache k) = 1 ->
  exists h1,
    __invert__ x h = Return x h1 /\
    invert_thrice x h = Return x h1.
Proof.
  intros Hk Hone.
  apply inverted_Some in Hone as [k1 Hi1].
  assert (Hone1 : is_Some (inverted k1)).
  { apply inverted_Some. destruct (inverted_frame k k1 Hi1) as (_ & _ & Hls & Hlc & _).
    rewrite Hls, Hlc. apply inverted_Some. eauto. }
  destruct Hone1 as [k2 Hi2].
  assert (Hone2 : is_Some (inverted k2)).
  { apply inverted_Some. destruct (inverted_frame k1 k2 Hi2) as (_ & _ & Hls & Hlc & _).
    rewrite Hls, Hlc. apply inverted_Some. eauto. }
  destruct Hone2 as [k3 Hi3].
  assert (Hk1 : <[x := k1]> h !! x = Some k1) by (eapply lookup_put_same, Hk).
  assert (Hk2 : <[x := k2]> (<[x := k1]> h) !! x = Some k2)
    by (eapply lookup_put_same, Hk1).
  exists (<[x := k1]> h).
  split; [rewrite (invert_live _ _ _ Hk); now rewrite Hi1|].
  unfold invert_thrice, bind.
  rewrite (invert_live _ _ _ Hk), Hi1.
  rewrite (invert_live _ _ _ Hk1), Hi2.
  rewrite (invert_live _ _ _ Hk2), Hi3.
  rewrite !insert_twice.
  now rewrite (inverted_thrice k k1 k2 k3 Hi1 Hi2 Hi3).
Qed.

(** [X11] on the string with mixed markers that two negations do not
    restore. *)
Lemma X11_third_negation_repeats_the_first_witness :
  invert_thrice 0 [mk None ["Egap(!1),nspecies(2)"] [] {[ Some "Egap"; Some "nspecies" ]}]
  = Return 0 [mk None ["Egap(1),nspecies(2)"] [] {[ Some "Egap"; Some "nspecies" ]}].
Proof.
  destruct (X11_third_negation_repeats_the_first
              [mk None ["Egap(!1),nspecies(2)"] [] {[ Some "Egap"; Some "nspecies" ]}]
              0 _ eq_refl (or_introl eq_refl))
    as (h1 & Hone & Hthree).
  rewrite Hthree.
  assert (Hval : __invert__ 0 [mk None ["Egap(!1),nspecies(2)"] []
                                  {[ Some "Egap"; Some "nspecies" ]}]
                 = Return 0 [mk None ["Egap(1),nspecies(2)"] []
                                {[ Some "Egap"; Some "nspecies" ]}])
    by reflexivity.
  rewrite Hval in Hone. now injection Hone as <-.
Defined.

Lemma replace_app (c : ascii) (new x y : string) :
  PyStr.replace c new (x +:+ y) = PyStr.replace c new x +:+ PyStr.replace c new y.
Proof.
  induction x as [|a x IH]; [reflexivity|].
  change (PyStr.replace c new (String a (x +:+ y))
          = PyStr.replace c new (String a x) +:+ PyStr.replace c new y).
  simpl. destruct (Ascii.eqb a c).
  - now rewrite IH, str_app_assoc.
  - now rewrite IH.
Qed.

Lemma toggled_simple (f rest : string) :
  PyStr.contains PyStr.lparen f = false ->
  PyStr.contains PyStr.bang f = false ->
  PyStr.contains PyStr.lparen rest = false ->
  PyStr.contains PyStr.bang rest = false ->
  toggled (f +:+ "(" +:+ rest) = f +:+ "(!" +:+ rest.
Proof.
  intros Hpf Hbf Hpr Hbr. unfold toggled.
  rewrite !contains_app, Hbf, Hbr. simpl.
  rewrite !replace_app, (mark_nothing f Hpf), (mark_nothing rest Hpr).
  reflexivity.
Qed.

(** X12. On a clean prototype whose field name and comparison value hold
    neither ['('] nor ['!'], [~(field == v)] returns the prototype with the
    marker right after the opening parenthesis of the comparison: the string
    is [field(!'v')] for a text [v] and [field(!v)] for any other. *)
Theorem X12_negated_comparison
    (h : heap) (x : ref) (k : t) (f : string) (v : value) :
  h !! x = Some k ->
  name k = Some f ->
  state k = [] ->
  cache k = [] ->
  PyStr.contains PyStr.lparen f = false ->
  PyStr.contains PyStr.bang f = false ->
  PyStr.contains PyStr.lparen (format_value v) = false ->
  PyStr.contains PyStr.bang (format_value v) = false ->
  exists h',
    (l <- __eq__ x v ;; __invert__ l) h = Return x h' /\
    __str__ x h'
    = Return (Some match v with
                   | VStr s => f +:+ "(!'" +:+ s +:+ "')"
                   | VInt z => f +:+ "(!" +:+ pretty z +:+ ")"
                   | VObj o => f +:+ "(!" +:+ o +:+ ")"
                   end) h'.
Proof.
  intros Hk Hname Hstate Hcache Hpf Hbf Hpv Hbv.
  destruct k as [nm st ca cl]. simpl in *. subst nm st ca.
  set (k1 := mk (Some f) [] [eq_entry (Some f) v] cl).
  assert (Hk1 : <[x := k1]> h !! x = Some k1) by (eapply lookup_put_same, Hk).
  assert (Htog : toggled (eq_entry (Some f) v)
                 = match v with
                   | VStr s => f +:+ "(!'" +:+ s +:+ "')"
                   | VInt z => f +:+ "(!" +:+ pretty z +:+ ")"
                   | VObj o => f +:+ "(!" +:+ o +:+ ")"
                   end).
  { unfold eq_entry. destruct v as [s|z|o]; simpl in *.
    - change (f +:+ "('" +:+ s +:+ "')") with (f +:+ "(" +:+ ("'" +:+ s +:+ "')")).
      rewrite toggled_simple; try assumption; try reflexivity.
      + change ("'" +:+ s +:+ "')") with (String "'" (s +:+ "')")). simpl.
        rewrite contains_app, Hpv. reflexivity.
      + change ("'" +:+ s +:+ "')") with (String "'" (s +:+ "')")). simpl.
        rewrite contains_app, Hbv. reflexivity.
    - rewrite toggled_simple; try assumption; try reflexivity;
        rewrite contains_app; [rewrite Hpv | rewrite Hbv]; reflexivity.
    - rewrite toggled_simple; try assumption; try reflexivity;
        rewrite contains_app; [rewrite Hpv | rewrite Hbv]; reflexivity. }
  eexists. split.
  - unfold bind. rewrite (eq_live _ _ _ v Hk).
    change (set_cache _ _) with k1.
    rewrite (invert_live _ _ _ Hk1). reflexivity.
  - erewrite str_live by (eapply lookup_put_same, Hk1).
    unfold str_of. simpl. now rewrite Htog.
Qed.

(** [X12] for [~(Egap_type == 'metal')] and, inside it, the hypotheses on
    the name and on the value. *)
Lemma X12_negated_comparison_witness :
  exists h',
    (l <- __eq__ 0 (VStr "metal") ;; __invert__ l) [prototype "Egap_type"]
    = Return 0 h' /\
    __str__ 0 h' = Return (Some "Egap_type(!'metal')") h'.
Proof.
  exact (X12_negated_comparison [prototype "Egap_type"] 0 (prototype "Egap_type")
           "Egap_type" (VStr "metal")
           eq_refl eq_refl eq_refl eq_refl eq_refl eq_refl eq_refl eq_refl).
Defined.

(** * Further properties of the module functions *)

(** ** Discovery *)

(** X13. [_find_all] never touches the heap or the module members. When
    [_all_keywords] already holds a name it does nothing at all, so an
    instance bound in the module later is not discovered. From an empty
    [_all_keywords] it lists exactly the names of the members that are
    [Keyword] instances. Calling it again right after changes nothing. *)
Theorem X13_find_all_discovers_once (w : Registry.world) :
  exists w',
    Registry._find_all w = Return tt w' /\
    Registry.objects w' = Registry.objects w /\
    Registry.members w' = Registry.members w /\
    (Registry._all_keywords w ≠ [] -> w' = w) /\
    (Registry._all_keywords w = [] ->
     forall n, n ∈ Registry._all_keywords w' <->
               exists r, (n, Registry.Instance r) ∈ Registry.members w) /\
    Registry._find_all w' = Return tt w'.
Proof.
  destruct w as [h mems ak].
  eexists. split; [apply find_all_run|]. simpl.
  split; [reflexivity|]. split; [reflexivity|].
  split; [|split].
  - intros Hne. destruct ak; [congruence | reflexivity].
  - intros -> n. split.
    + apply discovered_bound.
    + intros [r Hr]. now apply (discovered_complete mems n r).
  - rewrite find_all_run. simpl. destruct ak as [|n ak]; simpl.
    + now destruct (discovered mems).
    + reflexivity.
Qed.

(** ** Reset *)

Lemma cleared_fixed (k : t) : state k = [] -> cache k = [] -> cleared k = k.
Proof. destruct k as [nm st ca cl]. simpl. now intros -> ->. Qed.

Lemma reset_loop_fixed
    (mems : list (string * Registry.pyobj)) (ak l : list string) (h : heap) :
  (forall n, n ∈ l ->
     exists r k, Registry.assoc n mems = Some (Registry.Instance r) /\
                 h !! r = Some k /\ state k = [] /\ cache k = []) ->
  for_each l (fun n =>
      cls <- Registry.getattr n ;;
      Registry.setattr_state cls [] ;;
      Registry.setattr_cache cls []) (Registry.mk h mems ak)
  = Return tt (Registry.mk h mems ak).
Proof.
  induction l as [|n l IH]; intros Hall; [reflexivity|].
  destruct (Hall n) as (r & k & Hn & Hk & Hs & Hc); [apply elem_of_cons; now left|].
  simpl. unfold bind at 1. rewrite (reset_body_run mems ak h n r k Hn Hk).
  assert (Hid : <[r := cleared k]> h = h).
  { rewrite (cleared_fixed k Hs Hc). apply list_insert_id. exact Hk. }
  rewrite Hid.
  apply IH. intros n' Hin. apply Hall. apply elem_of_cons. now right.
Qed.

(** X14. [reset()] is idempotent: under the conditions in which it returns
    (distinct member names, instances that are objects of the heap, an
    [_all_keywords] that names instances only), a second [reset()] right
    after the first returns as well and changes nothing, neither a node nor
    the list of registered names. *)
Theorem X14_reset_twice_is_reset_once (w : Registry.world) :
  NoDup (Registry.members w).*1 ->
  (forall n r, Registry.assoc n (Registry.members w) = Some (Registry.Instance r) ->
               is_Some (Registry.objects w !! r)) ->
  (forall n, n ∈ Registry._all_keywords w ->
             exists r, Registry.assoc n (Registry.members w)
                       = Some (Registry.Instance r)) ->
  exists w',
    Registry.reset w = Return tt w' /\
    Registry.reset w' = Return tt w'.
Proof.
  destruct w as [h mems ak]. simpl. intros Hnd Hheap Hreg.
  set (names := match ak with [] => discovered mems | _ :: _ => ak end).
  assert (Hnames : forall n, n ∈ names ->
            exists r, Registry.assoc n mems = Some (Registry.Instance r) /\
                      is_Some (h !! r)).
  { intros n Hin. unfold names in Hin. destruct ak as [|n0 ak].
    - destruct (discovered_bound mems n Hin) as [r Hr].
      exists r. pose proof (assoc_of_member mems n _ Hnd Hr) as Ha.
      split; [exact Ha | now apply (Hheap n r)].
    - destruct (Hreg n Hin) as [r Hr]. exists r.
      split; [exact Hr | now apply (Hheap n r)]. }
  destruct (reset_loop mems names names h Hnames)
    as (h' & Hrun & _ & _ & Hclr & _).
  exists (Registry.mk h' mems names).
  split.
  { unfold Registry.reset. unfold bind at 1.
    rewrite (find_all_run (Registry.mk h mems ak)). simpl. exact Hrun. }
  unfold Registry.reset. unfold bind at 1.
  rewrite (find_all_run (Registry.mk h' mems names)). simpl.
  assert (Hsame : match names with [] => discovered mems | _ :: _ => names end
                  = names).
  { unfold names. destruct ak; [now destruct (discovered mems) | reflexivity]. }
  rewrite Hsame. apply reset_loop_fixed.
  intros n Hin. destruct (Hnames n Hin) as (r & Hr & [k Hk]).
  exists r, (cleared k). split; [exact Hr|].
  split; [apply (Hclr r k Hk); eauto|]. split; reflexivity.
Qed.

(** [X14] on a module with the prototypes [Egap] and [nspecies], both left
    with entries by an earlier query. *)
Lemma X14_reset_twice_is_reset_once_witness :
  exists w',
    Registry.reset
      (Registry.mk
         [mk (Some "Egap") [] ["Egap(1.0*)"] {[ Some "Egap" ]};
          mk (Some "nspecies") ["nspecies(2*),nspecies(*5)"] [] {[ Some "nspecies" ]}]
         [("Egap", Registry.Instance 0);
          ("Keyword", Registry.Other true);
          ("nspecies", Registry.Instance 1)]
         [])
    = Return tt w' /\
    Registry.reset w' = Return tt w'.
Proof.
  apply (X14_reset_twice_is_reset_once
           (Registry.mk
              [mk (Some "Egap") [] ["Egap(1.0*)"] {[ Some "Egap" ]};
               mk (Some "nspecies") ["nspecies(2*),nspecies(*5)"] []
                  {[ Some "nspecies" ]}]
              [("Egap", Registry.Instance 0);
               ("Keyword", Registry.Other true);
               ("nspecies", Registry.Instance 1)]
              [])).
  - simpl. apply (bool_decide_unpack _). reflexivity.
  - intros n r. cbn [Registry.members Registry.objects Registry.assoc].
    destruct (String.eqb "Egap" n);
      [intros Heq; inversion Heq; subst; simpl; eauto|].
    destruct (String.eqb "Keyword" n); [discriminate|].
    destruct (String.eqb "nspecies" n);
      [intros Heq; inversion Heq; subst; simpl; eauto|].
    discriminate.
  - simpl. intros n Hin. inversion Hin.
Defined.

Lemma reset_loop_unbound
    (mems : list (string * Registry.pyobj)) (ak l : list string) (n : string) :
  n ∈ l ->
  Registry.assoc n mems = None ->
  forall h : heap,
    (forall n' r, Registry.assoc n' mems = Some (Registry.Instance r) ->
                  r < length h) ->
    exists h',
      for_each l (fun n =>
          cls <- Registry.getattr n ;;
          Registry.setattr_state cls [] ;;
          Registry.setattr_cache cls []) (Registry.mk h mems ak)
      = Raise AttributeError (Registry.mk h' mems ak) /\
      length h' = length h.
Proof.
  intros Hin Hn. induction l as [|n0 l IH]; intros h Hlive; [inversion Hin|].
  destruct (Registry.assoc n0 mems) as [[r|[|]]|] eqn:Hn0.
  - destruct (lookup_lt_is_Some_2 h r (Hlive n0 r Hn0)) as [k Hk].
    assert (Hin' : n ∈ l).
    { apply elem_of_cons in Hin as [-> | Hin]; [congruence | exact Hin]. }
    destruct (IH Hin' (<[r := cleared k]> h)) as (h' & Hrun & Hlen).
    { intros n' r' Hr'.
      replace (length (<[r := cleared k]> h)) with (length h)
        by (symmetry; apply length_insert).
      now apply (Hlive n' r'). }
    exists h'. split.
    + simpl. unfold bind at 1. rewrite (reset_body_run mems ak h n0 r k Hn0 Hk).
      exact Hrun.
    + rewrite Hlen. apply length_insert.
  - assert (Hin' : n ∈ l).
    { apply elem_of_cons in Hin as [-> | Hin]; [congruence | exact Hin]. }
    destruct (IH Hin' h Hlive) as (h' & Hrun & Hlen).
    exists h'. split; [|exact Hlen].
    simpl. unfold bind at 1.
    unfold bind at 1, Registry.getattr, bind, Registry.read. simpl.
    rewrite Hn0. simpl. exact Hrun.
  - exists h. split; [|reflexivity].
    simpl. unfold bind at 1.
    unfold bind at 1, Registry.getattr, bind, Registry.read. simpl.
    rewrite Hn0. reflexivity.
  - exists h. split; [|reflexivity].
    simpl. unfold bind at 1.
    unfold bind at 1, Registry.getattr, bind, Registry.read. simpl.
    rewrite Hn0. reflexivity.
Qed.

(** X15. When [_all_keywords] holds a name that is no longer an attribute of
    the module, [reset()] raises [AttributeError]: [getattr] fails on that
    name, or an assignment fails on an earlier name that is bound to an
    object without settable attributes. The members and the registered names
    are as before and no object is created or removed. *)
Theorem X15_reset_raises_on_unbound_name (w : Registry.world) (n : string) :
  (forall n' r, Registry.assoc n' (Registry.members w) = Some (Registry.Instance r) ->
                is_Some (Registry.objects w !! r)) ->
  n ∈ Registry._all_keywords w ->
  Registry.assoc n (Registry.members w) = None ->
  exists w',
    Registry.reset w = Raise AttributeError w' /\
    Registry.members w' = Registry.members w /\
    Registry._all_keywords w' = Registry._all_keywords w /\
    length (Registry.objects w') = length (Registry.objects w).
Proof.
  destruct w as [h mems ak]. simpl. intros Hheap Hin Hn.
  destruct (reset_loop_unbound mems ak ak n Hin Hn h) as (h' & Hrun & Hlen).
  { intros n' r Hr. apply lookup_lt_is_Some. now apply (Hheap n' r). }
  exists (Registry.mk h' mems ak). split; [|now repeat split].
  unfold Registry.reset. unfold bind at 1.
  rewrite (find_all_run (Registry.mk h mems ak)). simpl.
  destruct ak as [|n0 ak]; [inversion Hin|]. exact Hrun.
Qed.

(** [X15] after the attribute [Egap] was removed from the module while its
    name stayed in [_all_keywords]. *)
Lemma X15_reset_raises_on_unbound_name_witness :
  exists w',
    Registry.reset
      (Registry.mk
         [mk (Some "Egap") [] ["Egap(1)"] {[ Some "Egap" ]};
          mk (Some "auid") [] ["auid(2)"] {[ Some "auid" ]}]
         [("auid", Registry.Instance 1)]
         ["Egap"; "auid"])
    = Raise AttributeError w'.
Proof.
  destruct (X15_reset_raises_on_unbound_name
              (Registry.mk
                 [mk (Some "Egap") [] ["Egap(1)"] {[ Some "Egap" ]};
                  mk (Some "auid") [] ["auid(2)"] {[ Some "auid" ]}]
                 [("auid", Registry.Instance 1)]
                 ["Egap"; "auid"]) "Egap")
    as (w' & Hrun & _).
  - intros n r. cbn [Registry.members Registry.objects Registry.assoc].
    destruct (String.eqb "auid" n);
      [intros Heq; inversion Heq; subst; simpl; eauto | discriminate].
  - simpl. apply elem_of_cons. now left.
  - reflexivity.
  - exists w'. exact Hrun.
Defined.

(** ** Load *)

Lemma load_body_run (w : Registry.world) (tg : gmap string Registry.pyobj)
    (n : string) (o : Registry.pyobj) :
  Registry.assoc n (Registry.members w) = Some o ->
  (cls <- Loader.in_module (Registry.getattr n) ;; Loader.target_setitem n cls)
    (Loader.mk w tg)
  = Return tt (Loader.mk w (<[n := o]> tg)).
Proof.
  intros Hn. unfold bind at 1, Loader.in_module. simpl.
  unfold Registry.getattr, bind, Registry.read. rewrite Hn. reflexivity.
Qed.

Lemma load_loop (w : Registry.world) (l : list string) :
  (forall n, n ∈ l -> is_Some (Registry.assoc n (Registry.members w))) ->
  forall tg : gmap string Registry.pyobj,
    exists tg' : gmap string Registry.pyobj,
      for_each l (fun n =>
          cls <- Loader.in_module (Registry.getattr n) ;;
          Loader.target_setitem n cls) (Loader.mk w tg)
      = Return tt (Loader.mk w tg') /\
      (forall n, n ∈ l -> tg' !! n = Registry.assoc n (Registry.members w)) /\
      (forall n, n ∉ l -> tg' !! n = tg !! n).
Proof.
  induction l as [|n0 l IH]; intros Hall tg.
  - exists tg. split; [reflexivity|]. split; [|reflexivity].
    intros n Hin. inversion Hin.
  - destruct (Hall n0) as [o0 Hn0]; [apply elem_of_cons; now left|].
    destruct (IH (fun n Hin => Hall n (proj2 (elem_of_cons l n n0) (or_intror Hin)))
                 (<[n0 := o0]> tg))
      as (tg' & Hrun & Hin' & Hout').
    exists tg'. split; [|split].
    + simpl. unfold bind at 1. rewrite (load_body_run w tg n0 o0 Hn0). exact Hrun.
    + intros n Hin. destruct (decide (n ∈ l)) as [Hl | Hl]; [now apply Hin'|].
      apply elem_of_cons in Hin as [-> | Hin]; [|contradiction].
      rewrite (Hout' n0 Hl), Hn0. apply lookup_insert_eq.
    + intros n Hnot. apply not_elem_of_cons in Hnot as [Hne Hnl].
      rewrite (Hout' n Hnl). now apply lookup_insert_ne.
Qed.

Lemma load_loop_fixed (w : Registry.world) (l : list string)
    (tg : gmap string Registry.pyobj) :
  (forall n, n ∈ l -> is_Some (Registry.assoc n (Registry.members w)) /\
                      tg !! n = Registry.assoc n (Registry.members w)) ->
  for_each l (fun n =>
      cls <- Loader.in_module (Registry.getattr n) ;;
      Loader.target_setitem n cls) (Loader.mk w tg)
  = Return tt (Loader.mk w tg).
Proof.
  induction l as [|n0 l IH]; intros Hall; [reflexivity|].
  destruct (Hall n0) as [[o0 Hn0] Htg]; [apply elem_of_cons; now left|].
  simpl. unfold bind at 1. rewrite (load_body_run w tg n0 o0 Hn0).
  rewrite insert_id by (now rewrite Htg).
  apply IH. intros n Hin. apply Hall. apply elem_of_cons. now right.
Qed.

Lemma load_run (w : Registry.world) (tg : gmap string Registry.pyobj) :
  Loader.load (Loader.mk w tg)
  = for_each (match Registry._all_keywords w with
              | [] => discovered (Registry.members w)
              | _ :: _ => Registry._all_keywords w
              end)
      (fun n =>
         cls <- Loader.in_module (Registry.getattr n) ;;
         Loader.target_setitem n cls)
      (Loader.mk (Registry.mk (Registry.objects w) (Registry.members w)
                    (match Registry._all_keywords w with
                     | [] => discovered (Registry.members w)
                     | _ :: _ => Registry._all_keywords w
                     end)) tg).
Proof.
  unfold Loader.load. unfold bind at 1, Loader.in_module. simpl.
  rewrite (find_all_run w). reflexivity.
Qed.

Lemma discovered_assoc (l : list (string * Registry.pyobj)) (n : string) :
  n ∈ discovered l -> is_Some (Registry.assoc n l).
Proof.
  induction l as [|[n' o'] l IH]; simpl; intros Hin; [inversion Hin|].
  destruct (String.eqb n' n) eqn:Hn; [eauto|].
  destruct (Registry.isinstance_Keyword o'); [|now apply IH].
  apply elem_of_cons in Hin as [-> | Hin]; [|now apply IH].
  rewrite String.eqb_refl in Hn. discriminate.
Qed.



(** X17. Loading twice is loading once: under the condition of [X16], a
    second [load(target)] into the same dictionary returns and leaves the
    dictionary, the registered names, the members and the heap exactly as the
    first left them. *)
Theorem X17_load_twice_is_load_once (s : Loader.store) :
  (forall n, n ∈ Registry._all_keywords (Loader.world s) ->
             is_Some (Registry.assoc n (Registry.members (Loader.world s)))) ->
  exists s',
    Loader.load s = Return tt s' /\
    Loader.load s' = Return tt s'.
Proof.
  destruct s as [[h mems ak] tg]. simpl. intros Hbound.
  set (names := match ak with [] => discovered mems | _ :: _ => ak end).
  assert (Hnames : forall n, n ∈ names ->
                             is_Some (Registry.assoc n mems)).
  { intros n Hin. unfold names in Hin. destruct ak as [|n0 ak].
    - now apply discovered_assoc.
    - now apply Hbound. }
  destruct (load_loop (Registry.mk h mems names) names Hnames tg)
    as (tg' & Hrun & Hin & _).
  exists (Loader.mk (Registry.mk h mems names) tg').
  split; [rewrite load_run; exact Hrun|].
  rewrite load_run. simpl.
  assert (Hsame : match names with [] => discovered mems | _ :: _ => names end
                  = names).
  { unfold names. destruct ak; [now destruct (discovered mems) | reflexivity]. }
  rewrite Hsame.
  apply (load_loop_fixed (Registry.mk h mems names) names tg').
  intros n Hn. split; [now apply Hnames | now apply Hin].
Qed.

(** [X17] on the module of the two prototypes [Egap] and [auid]. *)
Lemma X17_load_twice_is_load_once_witness :
  exists s',
    Loader.load
      (Loader.mk
         (Registry.mk [prototype "Egap"; prototype "auid"]
            [("Egap", Registry.Instance 0); ("auid", Registry.Instance 1)] [])
         ∅)
    = Return tt s' /\
    Loader.load s' = Return tt s'.
Proof.
  apply (X17_load_twice_is_load_once
           (Loader.mk
              (Registry.mk [prototype "Egap"; prototype "auid"]
                 [("Egap", Registry.Instance 0); ("auid", Registry.Instance 1)] [])
              ∅)).
  simpl. intros n Hin. inversion Hin.
Defined.

(** * Further properties of composite expressions *)



(** X19. In [(field == v) & other] (or [|]) on a clean prototype and a
    resolved other node, the comparison is put in parentheses exactly when
    the field name or the text of the value holds a colon or a comma: the
    test is made on the rendered comparison, so a comma inside a quoted text
    value counts. *)
Theorem X19_comparison_parenthesized_iff_delimiter
    (h : heap) (x y : ref) (kx ky : t) (f o token : string) (v : value) :
  y ≠ x ->
  h !! x = Some kx ->
  h !! y = Some ky ->
  name kx = Some f ->
  state kx = [] ->
  cache kx = [] ->
  resolved ky = Some o ->
  let entry :=
    match v with
    | VStr s => f +:+ "('" +:+ s +:+ "')"
    | VInt z => f +:+ "(" +:+ pretty z +:+ ")"
    | VObj r => f +:+ "(" +:+ r +:+ ")"
    end in
  let delimited (t : string) :=
    PyStr.contains PyStr.colon t || PyStr.contains PyStr.comma t in
  exists new h',
    compare_then_combine x y v token h = Return new h' /\
    __str__ new h'
    = Return (Some ((if delimited f || delimited (format_value v)
                     then "(" +:+ entry +:+ ")" else entry)
                    +:+ token +:+ wrap o)) h'.
Proof.
  intros Hne Hx Hy Hname Hstate Hcache Ho entry delimited.
  destruct kx as [nm st ca cl]. simpl in *. subst nm st ca.
  set (kx' := mk (Some f) [] [eq_entry (Some f) v] cl).
  assert (Hentry : eq_entry (Some f) v = entry)
    by (unfold eq_entry, entry; now destruct v).
  assert (Hx' : <[x := kx']> h !! x = Some kx') by (eapply lookup_put_same, Hx).
  assert (Hy' : <[x := kx']> h !! y = Some ky)
    by (rewrite lookup_put_other by exact Hne; exact Hy).
  assert (Hwrap : wrap entry
                  = if delimited f || delimited (format_value v)
                    then "(" +:+ entry +:+ ")" else entry).
  { unfold wrap, entry, delimited.
    destruct v as [s|z|r]; simpl; rewrite !contains_app; simpl;
      rewrite ?orb_false_r;
      destruct (PyStr.contains PyStr.colon f), (PyStr.contains PyStr.comma f);
      simpl; try reflexivity;
      match goal with
      | |- context [PyStr.contains PyStr.colon ?t] =>
          destruct (PyStr.contains PyStr.colon t),
                   (PyStr.contains PyStr.comma t); reflexivity
      end. }
  do 2 eexists. split.
  - unfold compare_then_combine, bind. rewrite (eq_live _ _ _ v Hx).
    change (set_cache _ _) with kx'.
    rewrite (cross_combine_live _ _ _ _ _ _ Hne Hx' Hy').
    unfold resolved at 1. simpl. rewrite Ho. reflexivity.
  - erewrite str_live by (apply list_lookup_middle; reflexivity).
    unfold str_of, combined. simpl. now rewrite Hentry, Hwrap.
Qed.

(** [X19] with the text value [a,b]. *)
Lemma X19_comparison_parenthesized_iff_delimiter_witness :
  exists new h',
    compare_then_combine 0 1 (VStr "a,b") ","
      [prototype "species"; mk (Some "auid") [] ["auid(2)"] {[ Some "auid" ]}]
    = Return new h' /\
    __str__ new h' = Return (Some "(species('a,b')),auid(2)") h'.
Proof.
  destruct (X19_comparison_parenthesized_iff_delimiter
              [prototype "species"; mk (Some "auid") [] ["auid(2)"] {[ Some "auid" ]}]
              0 1 (prototype "species")
              (mk (Some "auid") [] ["auid(2)"] {[ Some "auid" ]})
              "species" "auid(2)" "," (VStr "a,b"))
    as (new & h' & Hrun & Hstr);
    [discriminate | reflexivity | reflexivity | reflexivity | reflexivity
    | reflexivity | reflexivity |].
  exists new, h'. split; [exact Hrun | exact Hstr].
Defined.

(** ** Load on a stale registry *)

Lemma for_each_app {S A : Type} (l1 l2 : list A) (body : A -> M S unit) (s : S) :
  for_each (l1 ++ l2) body s = (for_each l1 body ;; for_each l2 body) s.
Proof.
  revert s. induction l1 as [|x l1 IH]; intros s; [reflexivity|].
  simpl. unfold bind.
  destruct (body x s) as [[] s'| |]; try reflexivity.
  rewrite IH. reflexivity.
Qed.

(** X20. When [_all_keywords] holds a name that is no longer an attribute of
    the module, and every name before it still is, [load(target)] raises
    [AttributeError] at that name; [target] has by then received the entries
    of the names before it and keeps them, its other keys are untouched, and
    the module state is unchanged. *)
Theorem X20_load_stops_at_unbound_name
    (s : Loader.store) (l1 l2 : list string) (n : string) :
  Registry._all_keywords (Loader.world s) = l1 ++ n :: l2 ->
  (forall m, m ∈ l1 ->
             is_Some (Registry.assoc m (Registry.members (Loader.world s)))) ->
  Registry.assoc n (Registry.members (Loader.world s)) = None ->
  exists tg' : gmap string Registry.pyobj,
    Loader.load s = Raise AttributeError (Loader.mk (Loader.world s) tg') /\
    (forall m, m ∈ l1 ->
               tg' !! m = Registry.assoc m (Registry.members (Loader.world s))) /\
    (forall m, m ∉ l1 -> tg' !! m = Loader.target s !! m).
Proof.
  destruct s as [[h mems ak] tg]. simpl. intros Hak Hbound Hn.
  destruct (load_loop (Registry.mk h mems ak) l1 Hbound tg)
    as (tg' & Hrun & Hin & Hout).
  exists tg'. split; [|split; assumption].
  rewrite load_run. simpl.
  assert (Hnames : match ak with [] => discovered mems | _ :: _ => ak end = ak).
  { destruct ak; [|reflexivity]. now destruct l1. }
  rewrite Hnames. rewrite Hak at 1.
  rewrite for_each_app. unfold bind at 1. rewrite Hrun.
  simpl. unfold bind at 1. unfold bind at 1, Loader.in_module. simpl.
  unfold Registry.getattr, bind, Registry.read. simpl. rewrite Hn. reflexivity.
Qed.

(** [X20] after [auid] was removed from the module: [Egap] is loaded, [auid]
    raises, [species] is never reached. *)
Lemma X20_load_stops_at_unbound_name_witness :
  exists tg' : gmap string Registry.pyobj,
    Loader.load
      (Loader.mk
         (Registry.mk [prototype "Egap"; prototype "auid"; prototype "species"]
            [("Egap", Registry.Instance 0); ("species", Registry.Instance 2)]
            ["Egap"; "auid"; "species"])
         ∅)
    = Raise AttributeError
        (Loader.mk
           (Registry.mk [prototype "Egap"; prototype "auid"; prototype "species"]
              [("Egap", Registry.Instance 0); ("species", Registry.Instance 2)]
              ["Egap"; "auid"; "species"])
           tg') /\
    tg' !! "Egap" = Some (Registry.Instance 0) /\
    tg' !! "species" = None.
Proof.
  destruct (X20_load_stops_at_unbound_name
              (Loader.mk
                 (Registry.mk [prototype "Egap"; prototype "auid"; prototype "species"]
                    [("Egap", Registry.Instance 0); ("species", Registry.Instance 2)]
                    ["Egap"; "auid"; "species"])
                 ∅)
              ["Egap"] ["species"] "auid")
    as (tg' & Hrun & Hin & Hout).
  - reflexivity.
  - intros m Hm. apply list_elem_of_singleton in Hm as ->. simpl. eauto.
  - reflexivity.
  - exists tg'. split; [exact Hrun|]. split.
    + apply (Hin "Egap"). apply list_elem_of_singleton. reflexivity.
    + rewrite (Hout "species"); [reflexivity|].
      intros Hm. apply list_elem_of_singleton in Hm. discriminate.
Defined.
